(** * financial_db: the spreadsheet ingestion path of [server.js]

    A shallow embedding of the helpers [monthStringToIndex], [parseAmount]
    and [findHeaderIndexes] and of the body of the upload route that turns
    the rows of a worksheet into the [normalized] list of month/amount
    records, followed by the properties the design document states about
    them.

    Conventions.
    - A JavaScript number is an IEEE 754 binary64 value: Rocq's primitive
      [float].  Comparisons and arithmetic are the primitive ones.
    - A JavaScript string is a [string] whose characters are the code units
      below 256 (Latin-1 text).
    - [null] and [undefined] are never told apart by the code
      ([=== null || === undefined], [??]); both are the cell [CNull].
    - [new Date(s)] on free text is left to the engine by ECMAScript; the
      month it reports is a parameter of the development
      ([dateStringMonth]). *)

From Stdlib Require Import ZArith List String Ascii Bool Lia.
From Stdlib Require Import DecimalString.
From Stdlib Require Import Floats.
Import ListNotations.

Local Open Scope string_scope.
Local Open Scope Z_scope.

(** ** Early return

    The helpers are chains of [if (...) return ...;].  [r1 <|> r2] is
    "the value [r1] returns, or else go on with [r2]". *)

Definition orElse {A} (r : option A) (k : option A) : option A :=
  match r with
  | Some a => Some a
  | None => k
  end.

Notation "r <|> k" := (orElse r k) (at level 61, right associativity).

(** ** Strings *)

Module JsString.

Definition code (c : ascii) : N := N_of_ascii c.

(** WhiteSpace and LineTerminator code units below 256: TAB, LF, VT, FF,
    CR, SP and NBSP.  The same set is what [\s] matches. *)
Definition isWhiteSpace (c : ascii) : bool :=
  match code c with
  | 9 | 10 | 11 | 12 | 13 | 32 | 160 => true
  | _ => false
  end%N.

(** [\d] *)
Definition isDigit (c : ascii) : bool :=
  ((48 <=? code c) && (code c <=? 57))%N.

Fixpoint trimStart (s : string) : string :=
  match s with
  | EmptyString => EmptyString
  | String c rest => if isWhiteSpace c then trimStart rest else s
  end.

Fixpoint trimEnd (s : string) : string :=
  match s with
  | EmptyString => EmptyString
  | String c rest =>
      match trimEnd rest with
      | EmptyString => if isWhiteSpace c then EmptyString else String c EmptyString
      | t => String c t
      end
  end.

(** [s.trim()] *)
Definition trim (s : string) : string := trimEnd (trimStart s).

Definition lowerChar (c : ascii) : ascii :=
  let n := code c in
  if ((65 <=? n) && (n <=? 90) || (192 <=? n) && (n <=? 222) && negb (n =? 215))%N
  then ascii_of_N (n + 32)
  else c.

Fixpoint mapChars (f : ascii -> ascii) (s : string) : string :=
  match s with
  | EmptyString => EmptyString
  | String c rest => String (f c) (mapChars f rest)
  end.

(** [s.toLowerCase()] *)
Definition toLowerCase (s : string) : string := mapChars lowerChar s.

Fixpoint filterChars (keep : ascii -> bool) (s : string) : string :=
  match s with
  | EmptyString => EmptyString
  | String c rest =>
      if keep c then String c (filterChars keep rest) else filterChars keep rest
  end.

(** [s.replace(/\s+/g, '')] *)
Definition removeWhiteSpace (s : string) : string :=
  filterChars (fun c => negb (isWhiteSpace c)) s.

(** [s.replace(/[.,]/g, '')] *)
Definition removeDotsAndCommas (s : string) : string :=
  filterChars (fun c => negb (Ascii.eqb c "." || Ascii.eqb c ",")) s.

(** [s.replace(/[^0-9.\-]/g, '')] *)
Definition isAmountChar (c : ascii) : bool :=
  isDigit c || Ascii.eqb c "." || Ascii.eqb c "-".

Definition keepAmountChars (s : string) : string := filterChars isAmountChar s.

(** [/^\d{1,2}$/.test(s)] *)
Definition isOneOrTwoDigits (s : string) : bool :=
  match s with
  | String a EmptyString => isDigit a
  | String a (String b EmptyString) => isDigit a && isDigit b
  | _ => false
  end.

Definition digitValue (c : ascii) : Z := Z.of_N (code c) - 48.

(** The value of a string of decimal digits, most significant first. *)
Fixpoint digitsValueFrom (acc : Z) (s : string) : Z :=
  match s with
  | EmptyString => acc
  | String c rest => digitsValueFrom (10 * acc + digitValue c) rest
  end.

Definition digitsValue (s : string) : Z := digitsValueFrom 0 s.

(** The longest prefix of digits, and what follows it. *)
Fixpoint spanDigits (s : string) : string * string :=
  match s with
  | EmptyString => (EmptyString, EmptyString)
  | String c rest =>
      if isDigit c
      then let '(ds, tl) := spanDigits rest in (String c ds, tl)
      else (EmptyString, s)
  end.

Fixpoint zeros (n : nat) : string :=
  match n with
  | O => EmptyString
  | S k => String "0" (zeros k)
  end.

(** [arr.includes(x)] on an array of strings *)
Definition includes (arr : list string) (x : string) : bool :=
  existsb (String.eqb x) arr.

End JsString.

(** ** Numbers *)

Module JsNumber.
Import JsString.

(** The Number value of the decimal [m * 10^e10] ([m >= 0]), signed:
    round to nearest, ties to even. *)
Definition decimalToSpec (neg : bool) (m : Z) (e10 : Z) : spec_float :=
  match m with
  | Zpos p =>
      if 0 <=? e10
      then binary_round prec emax neg (p * Z.to_pos (10 ^ e10)) 0
      else SFdiv prec emax (S754_finite neg p 0)
                 (S754_finite false (Z.to_pos (10 ^ (- e10))) 0)
  | _ => S754_zero neg
  end.

Definition decimalToFloat (neg : bool) (m : Z) (e10 : Z) : float :=
  SF2Prim (decimalToSpec neg m e10).

(** An integer as a Number. *)
Definition ofZ (z : Z) : float := decimalToFloat (z <? 0) (Z.abs z) 0.

(** The exponent part [e[+-]ddd] of a decimal literal, when well formed. *)
Definition exponentPart (s : string) : Z :=
  match s with
  | String c rest =>
      if Ascii.eqb c "e" || Ascii.eqb c "E" then
        let '(neg, ds) :=
          match rest with
          | String "-" r => (true, fst (spanDigits r))
          | String "+" r => (false, fst (spanDigits r))
          | _ => (false, fst (spanDigits rest))
          end in
        match ds with
        | EmptyString => 0
        | _ => if neg then - digitsValue ds else digitsValue ds
        end
      else 0
  | EmptyString => 0
  end.

(** [parseFloat(s)]: the longest prefix of the trimmed input that is a
    decimal literal; [NaN] when there is none. *)
Definition parseFloat (input : string) : float :=
  let s := trimStart input in
  let '(neg, s1) :=
    match s with
    | String "-" r => (true, r)
    | String "+" r => (false, r)
    | _ => (false, s)
    end in
  if String.prefix "Infinity" s1 then (if neg then neg_infinity else infinity)
  else
    let '(ip, s2) := spanDigits s1 in
    let '(fp, s3) :=
      match s2 with
      | String "." r => spanDigits r
      | _ => (EmptyString, s2)
      end in
    match ip ++ fp with
    | EmptyString => nan
    | ds => decimalToFloat neg (digitsValue ds)
              (exponentPart s3 - Z.of_nat (String.length fp))
    end.

(** *** [String(x)] for a number: Number::toString, radix 10

    The digits are the shortest decimal [s * 10^(n-k)] ([k] digits) whose
    Number value is [x]; among several, the closest to [x].  The positive
    finite [x] is handled as the exact fraction [num / den]. *)

Definition belowPow10 (num den n : Z) : bool :=
  if 0 <=? n then num <? den * 10 ^ n else num * 10 ^ (- n) <? den.

(** The least [n], from [n] on, with [num / den < 10^n]. *)
Fixpoint decimalExponentFrom (fuel : nat) (num den n : Z) : Z :=
  match fuel with
  | O => n
  | S f =>
      if belowPow10 num den n then n
      else decimalExponentFrom f num den (n + 1)
  end.

Definition decimalExponent (num den : Z) : Z :=
  decimalExponentFrom 700 num den (-330).

Definition roundTrips (x : spec_float) (s e10 : Z) : bool :=
  SFeqb (decimalToSpec false s e10) x.

(** The [k]-digit candidates below and above [x]. *)
Definition shortestAt (x : spec_float) (num den n0 k : Z) : option (Z * Z) :=
  let '(a, b) :=
    if 0 <=? k - n0 then (num * 10 ^ (k - n0), den)
    else (num, den * 10 ^ (n0 - k)) in
  let lo := a / b in
  let hi := lo + 1 in
  let above := if hi =? 10 ^ k then (10 ^ (k - 1), n0 + 1) else (hi, n0) in
  match roundTrips x lo (n0 - k), roundTrips x hi (n0 - k) with
  | true, true =>
      match 2 * a ?= (lo + hi) * b with
      | Lt => Some (lo, n0)
      | Gt => Some above
      | Eq => if Z.even lo then Some (lo, n0) else Some above
      end
  | true, false => Some (lo, n0)
  | false, true => Some above
  | false, false => None
  end.

Fixpoint shortestFrom (fuel : nat) (x : spec_float) (num den n0 k : Z)
  : Z * Z * Z :=
  match fuel with
  | O => (0, k, n0)
  | S f =>
      match shortestAt x num den n0 k with
      | Some (s, n) => (s, k, n)
      | None => shortestFrom f x num den n0 (k + 1)
      end
  end.

Definition digitsOf (s : Z) : string :=
  NilEmpty.string_of_uint (N.to_uint (Z.to_N s)).

Definition formatDecimal (s k n : Z) : string :=
  let d := digitsOf s in
  if (k <=? n) && (n <=? 21) then d ++ zeros (Z.to_nat (n - k))
  else if (0 <? n) && (n <=? 21) then
    substring 0 (Z.to_nat n) d ++ "." ++ substring (Z.to_nat n) (Z.to_nat (k - n)) d
  else if (-6 <? n) && (n <=? 0) then "0." ++ zeros (Z.to_nat (- n)) ++ d
  else
    let e := n - 1 in
    let es := (if e <? 0 then "-" else "+") ++ digitsOf (Z.abs e) in
    if k =? 1 then d ++ "e" ++ es
    else substring 0 1 d ++ "." ++ substring 1 (Z.to_nat (k - 1)) d ++ "e" ++ es.

Definition numberToString (v : float) : string :=
  match Prim2SF v with
  | S754_nan => "NaN"
  | S754_zero _ => "0"
  | S754_infinity neg => if neg then "-Infinity" else "Infinity"
  | S754_finite neg m e =>
      let num := if 0 <=? e then Zpos m * 2 ^ e else Zpos m in
      let den := if 0 <=? e then 1 else 2 ^ (- e) in
      let n0 := decimalExponent num den in
      let '(s, k, n) := shortestFrom 17 (S754_finite false m e) num den n0 1 in
      (if neg then "-" else "") ++ formatDecimal s k n
  end.

End JsNumber.

Import JsString JsNumber.

(** ** Cells and rows

    [XLSX.utils.sheet_to_json(ws, {header: 1, defval: null, raw: true})] on
    a workbook read with [cellDates: true] yields an array of arrays whose
    entries are [null], numbers, [Date] objects, strings or booleans. *)

(** A [Date] object, by what the code observes of it: whether its time
    value is [NaN], [getMonth()] (local time, 0-based) and [String(d)]. *)
Inductive JsDate : Type :=
| InvalidDate
| DateAt (month : Z) (text : string).

Inductive Cell : Type :=
| CNull
| CNum (v : float)
| CDate (d : JsDate)
| CText (s : string)
| CBool (b : bool).

Definition Row : Type := list Cell.

(** [String(val)] *)
Definition jsString (val : Cell) : string :=
  match val with
  | CNull => "null"
  | CNum v => numberToString v
  | CDate InvalidDate => "Invalid Date"
  | CDate (DateAt _ text) => text
  | CText s => s
  | CBool true => "true"
  | CBool false => "false"
  end.

(** [row[i]]: [undefined] outside the array. *)
Definition cellAt (row : Row) (i : Z) : Cell :=
  if i <? 0 then CNull else nth (Z.to_nat i) row CNull.

(** [arr.findIndex(p)] *)
Fixpoint findIndexFrom {A} (p : A -> bool) (i : Z) (arr : list A) : Z :=
  match arr with
  | [] => -1
  | x :: rest => if p x then i else findIndexFrom p (i + 1) rest
  end.

Definition findIndex {A} (p : A -> bool) (arr : list A) : Z :=
  findIndexFrom p 0 arr.

(** [arr.indexOf(x)] on an array of strings *)
Definition indexOf (arr : list string) (x : string) : Z :=
  findIndex (String.eqb x) arr.

(** ** The helpers of [server.js] *)

Definition MONTHS : list string :=
  [ "January"; "February"; "March"; "April"; "May"; "June";
    "July"; "August"; "September"; "October"; "November"; "December" ].

Definition abbr : list (string * Z) :=
  [ ("jan", 0); ("feb", 1); ("mar", 2); ("apr", 3); ("may", 4); ("jun", 5);
    ("jul", 6); ("aug", 7); ("sep", 8); ("sept", 8); ("oct", 9); ("nov", 10);
    ("dec", 11) ].

Definition full : list string := map toLowerCase MONTHS.

(** [abbr.hasOwnProperty(k) ? abbr[k] : undefined] *)
Fixpoint ownProperty (tbl : list (string * Z)) (k : string) : option Z :=
  match tbl with
  | [] => None
  | (k', v) :: rest => if String.eqb k k' then Some v else ownProperty rest k
  end.

(** Lines 73-76: the two ranges tried on a number. *)
Definition numericRule (val : float) : option float :=
  if ((1 <=? val) && (val <=? 12))%float then Some (val - 1)%float
  else if ((0 <=? val) && (val <=? 11))%float then Some val
  else None.

(** Lines 86-89: a string of one or two digits. *)
Definition digitStringRule (cleaned : string) : option float :=
  if isOneOrTwoDigits cleaned then
    let n := digitsValue cleaned in
    if (1 <=? n) && (n <=? 12) then Some (ofZ n - 1)%float else None
  else None.

(** Lines 91-95: full names, then abbreviations. *)
Definition nameRule (cleaned : string) : option float :=
  if includes full cleaned then Some (ofZ (indexOf full cleaned))
  else option_map ofZ (ownProperty abbr cleaned).

Section Engine.

(** [dateStringMonth s] is [new Date(s).getMonth()], or [None] when
    [new Date(s)] is an Invalid Date. *)
Variable dateStringMonth : string -> option Z.

(** Lines 78-97: what happens to a value once it is known not to be
    returned by the date and number tests. *)
Definition monthOfText (text : string) : option float :=
  let s := toLowerCase (trim text) in
  option_map ofZ (dateStringMonth s)
  <|> let cleaned := removeDotsAndCommas s in
      digitStringRule cleaned
      <|> nameRule cleaned.

Definition monthStringToIndex (val : Cell) : option float :=
  match val with
  | CNull => None
  | CDate (DateAt month _) => Some (ofZ month)
  | CNum v => numericRule v <|> monthOfText (jsString val)
  | _ => monthOfText (jsString val)
  end.

End Engine.

Definition parseAmount (val : Cell) : option float :=
  match val with
  | CNull => None
  | CNum v => Some v
  | _ =>
      let s := keepAmountChars (trim (jsString val)) in
      if String.eqb s "" || String.eqb s "-" || String.eqb s "." || String.eqb s "-."
      then None
      else
        let num := parseFloat s in
        if is_nan num then None else Some num
  end.

Record HeaderInfo : Type := mkHeaderInfo
  { headerRow : Z; monthIdx : Z; amountIdx : Z }.

(** [String(c ?? '').trim().toLowerCase().replace(/\s+/g, '')] *)
Definition normLabel (c : Cell) : string :=
  removeWhiteSpace (toLowerCase (trim (match c with CNull => "" | _ => jsString c end))).

Definition isMonthLabel (x : string) : bool := includes ["month"; "months"] x.
Definition isAmountLabel (x : string) : bool := includes ["amount"; "value"; "amt"] x.

(** The loop of [findHeaderIndexes], entered at row [r] with the rows from
    [r] on still to visit; an empty list is [r >= rows.length]. *)
Fixpoint headerLoop (r : Z) (rows : list Row) : option HeaderInfo :=
  match rows with
  | [] => None
  | row :: rest =>
      if r <? 30 then
        let norm := map normLabel row in
        let monthIdx := findIndex isMonthLabel norm in
        let amountIdx := findIndex isAmountLabel norm in
        if negb (monthIdx =? -1) && negb (amountIdx =? -1)
        then Some (mkHeaderInfo r monthIdx amountIdx)
        else headerLoop (r + 1) rest
      else None
  end.

Definition findHeaderIndexes (rows : list Row) : option HeaderInfo :=
  headerLoop 0 rows.

(** ** The upload route, lines 186-214 *)

Record NormalizedRecord : Type := mkRecord
  { monthNum : float; amount : float }.

Inductive UploadError : Type :=
| EmptyWorksheet
| HeaderNotFound
| NoValidRows.

Inductive Outcome : Type :=
| Failure (e : UploadError)
| Success (normalized : list NormalizedRecord).

(** [r => Array.isArray(r) && r.length > 0] *)
Definition nonEmptyRow (r : Row) : bool :=
  match r with
  | [] => false
  | _ :: _ => true
  end.

Section Upload.

Variable dateStringMonth : string -> option Z.

(** One turn of the [for (const r of dataRows)] loop on the array
    [normalized]: [continue], or [push]. *)
Definition normalizeStep (h : HeaderInfo) (normalized : list NormalizedRecord)
           (r : Row) : list NormalizedRecord :=
  let rawMonth := cellAt r (monthIdx h) in
  let rawAmount := cellAt r (amountIdx h) in
  match monthStringToIndex dateStringMonth rawMonth, parseAmount rawAmount with
  | Some mi, Some amt => normalized ++ [mkRecord (mi + 1)%float amt]
  | _, _ => normalized
  end.

Definition normalizeRows (h : HeaderInfo) (dataRows : list Row)
  : list NormalizedRecord :=
  fold_left (normalizeStep h) dataRows [].

Definition dataRowsOf (h : HeaderInfo) (rows : list Row) : list Row :=
  filter nonEmptyRow (skipn (Z.to_nat (headerRow h + 1)) rows).

Definition ingest (rows : list Row) : Outcome :=
  match rows with
  | [] => Failure EmptyWorksheet
  | _ =>
      match findHeaderIndexes rows with
      | None => Failure HeaderNotFound
      | Some h =>
          match normalizeRows h (dataRowsOf h rows) with
          | [] => Failure NoValidRows
          | normalized => Success normalized
          end
      end
  end.

End Upload.

(** ** The vocabulary of the design document *)

(** A cell "normalizing to a month-label synonym" and "to an amount-label
    synonym". *)
Definition MonthLabel (c : Cell) : Prop :=
  normLabel c = "month" \/ normLabel c = "months".

Definition AmountLabel (c : Cell) : Prop :=
  normLabel c = "amount" \/ normLabel c = "value" \/ normLabel c = "amt".

(** A row "contains both". *)
Definition Qualifies (row : Row) : Prop :=
  (exists c, In c row /\ MonthLabel c) /\ (exists c, In c row /\ AmountLabel c).

(** [i] is the position of the first cell of [row] satisfying [P]. *)
Definition FirstAt (P : Cell -> Prop) (row : Row) (i : Z) : Prop :=
  0 <= i /\
  (exists c, nth_error row (Z.to_nat i) = Some c /\ P c) /\
  (forall j c, (j < Z.to_nat i)%nat -> nth_error row j = Some c -> ~ P c).

(** A data row "yields a resolvable month and a parsable amount", or fails
    to. *)
Definition Resolves (dateStringMonth : string -> option Z) (h : HeaderInfo)
           (r : Row) (mi amt : float) : Prop :=
  monthStringToIndex dateStringMonth (cellAt r (monthIdx h)) = Some mi /\
  parseAmount (cellAt r (amountIdx h)) = Some amt.

Definition Unresolved (dateStringMonth : string -> option Z) (h : HeaderInfo)
           (r : Row) : Prop :=
  monthStringToIndex dateStringMonth (cellAt r (monthIdx h)) = None \/
  parseAmount (cellAt r (amountIdx h)) = None.

(** The rows "strictly after the header row". *)
Definition rowsAfter (h : HeaderInfo) (rows : list Row) : list Row :=
  skipn (Z.to_nat (headerRow h + 1)) rows.

(** A record as the design document describes it: a month number among
    1..12 and a finite amount. *)
Definition isMonthNumber (x : float) : bool :=
  existsb (fun k => (x =? ofZ k)%float) [1; 2; 3; 4; 5; 6; 7; 8; 9; 10; 11; 12].

Definition wellFormed (r : NormalizedRecord) : bool :=
  isMonthNumber (monthNum r) && is_finite (amount r).

(** Month resolution as the design document words it (its rules 1 to 6):
    a number outside both ranges is unresolved at once, and a string of one
    or two digits goes through the numeric rule, 0-based range included. *)
Definition specDigitRule (cleaned : string) : option float :=
  if isOneOrTwoDigits cleaned then numericRule (ofZ (digitsValue cleaned)) else None.

Definition specMonthResolve (dateStringMonth : string -> option Z) (val : Cell)
  : option float :=
  match val with
  | CNull => None
  | CDate (DateAt month _) => Some (ofZ month)
  | CNum v => numericRule v
  | _ =>
      let s := toLowerCase (trim (jsString val)) in
      option_map ofZ (dateStringMonth s)
      <|> let cleaned := removeDotsAndCommas s in
          specDigitRule cleaned <|> nameRule cleaned
  end.

(** Amount parsing as the design document words it: what is kept is the
    digits and the decimal points, and one minus sign when the kept text
    starts with it. *)
Definition specKeepChars (s : string) : string :=
  let body := filterChars (fun c => isDigit c || Ascii.eqb c ".") s in
  match keepAmountChars s with
  | String "-" _ => String "-" body
  | _ => body
  end.

Definition specParseAmount (val : Cell) : option float :=
  match val with
  | CNull => None
  | CNum v => Some v
  | _ =>
      let s := specKeepChars (trim (jsString val)) in
      if String.eqb s "" || String.eqb s "-" || String.eqb s "." || String.eqb s "-."
      then None
      else
        let num := parseFloat s in
        if is_nan num then None else Some num
  end.

(** ** A date reader to run the model with

    It reads a string of one or two decimal digits the way the date parser
    of Node (V8) does: 0 and 32..99 are a year, hence January; 1..12 are a
    month of 2001; 13..31 are rejected.  Every other string is rejected,
    which is what that parser does with text holding no number at all (a
    bare month name, "garbage") and with "0.0". *)
Definition bareNumberDates (s : string) : option Z :=
  if isOneOrTwoDigits s then
    let n := digitsValue s in
    if (1 <=? n) && (n <=? 12) then Some (n - 1)
    else if (13 <=? n) && (n <=? 31) then None
    else Some 0
  else None.

(** ** The normalization of a header cell, as the design document words it

    "Trim, lower-case, internal whitespace removed", carried out in that
    order on the characters of the cell's text.  The whitespace characters
    and the upper-case letters are given by their codes, independently of
    [JsString]. *)

Definition specSpaceCodes : list nat := [9; 10; 11; 12; 13; 32; 160]%nat.

Definition specIsSpace (c : ascii) : bool :=
  existsb (Nat.eqb (nat_of_ascii c)) specSpaceCodes.

Definition specLowerLetter (c : ascii) : ascii :=
  let n := nat_of_ascii c in
  if ((65 <=? n) && (n <=? 90) || (192 <=? n) && (n <=? 222) && negb (n =? 215))%nat
  then ascii_of_nat (n + 32)
  else c.

Fixpoint specDropSpaces (l : list ascii) : list ascii :=
  match l with
  | [] => []
  | c :: rest => if specIsSpace c then specDropSpaces rest else l
  end.

(** Whitespace dropped at the front, then at the back. *)
Definition specTrim (l : list ascii) : list ascii :=
  rev (specDropSpaces (rev (specDropSpaces l))).

Definition specNormalize (text : string) : string :=
  string_of_list_ascii
    (filter (fun c => negb (specIsSpace c))
       (map specLowerLetter (specTrim (list_ascii_of_string text)))).

(** The text of a cell is [String(c ?? '')]. *)
Definition specLabel (c : Cell) : string :=
  specNormalize (match c with CNull => "" | _ => jsString c end).

Definition SpecMonthLabel (c : Cell) : Prop :=
  specLabel c = "month" \/ specLabel c = "months".

Definition SpecAmountLabel (c : Cell) : Prop :=
  specLabel c = "amount" \/ specLabel c = "value" \/ specLabel c = "amt".

Definition SpecQualifies (row : Row) : Prop :=
  (exists c, In c row /\ SpecMonthLabel c) /\
  (exists c, In c row /\ SpecAmountLabel c).

(** ** The rest of the file: month labels and route parameters *)

(** What an expression of the read-back route evaluates to. *)
Inductive JsValue : Type :=
| VNull
| VUndefined
| VString (s : string).

(** [arr[idx]] for a number [idx]: the element stored under the property
    key [String(idx)], the keys of an array being "0", "1", ... *)
Fixpoint arrayGetFrom (arr : list string) (i : Z) (key : string) : option string :=
  match arr with
  | [] => None
  | x :: rest =>
      if String.eqb key (digitsOf i) then Some x else arrayGetFrom rest (i + 1) key
  end.

Definition arrayGet (arr : list string) (idx : float) : option string :=
  arrayGetFrom arr 0 (numberToString idx).

(** Line 59 *)
Definition indexToMonthName (idx : float) : JsValue :=
  if ((0 <=? idx) && (idx <=? 11))%float then
    match arrayGet MONTHS idx with
    | Some name => VString name
    | None => VUndefined
    end
  else VNull.

(** Line 265: [indexToMonthName((r.month_num || 1) - 1)], for a column
    read as a number or as [null]. *)
Definition orOne (month_num : option float) : float :=
  match month_num with
  | Some v => if is_zero v || is_nan v then 1%float else v
  | None => 1%float
  end.

Definition recordMonth (month_num : option float) : JsValue :=
  indexToMonthName (orOne month_num - 1)%float.

(** [parseInt(s, 10)]; the digits are given their exact value, rounded to
    the nearest number. *)
Definition parseInt10 (input : string) : float :=
  let s := trimStart input in
  let '(neg, s1) :=
    match s with
    | String "-" r => (true, r)
    | String "+" r => (false, r)
    | _ => (false, s)
    end in
  match fst (spanDigits s1) with
  | EmptyString => nan
  | ds => decimalToFloat neg (digitsValue ds) 0
  end.

(** [Number.isInteger(x)] *)
Definition isInteger (x : float) : bool :=
  match Prim2SF x with
  | S754_zero _ => true
  | S754_finite _ m e => if 0 <=? e then true else Zpos m mod 2 ^ (- e) =? 0
  | _ => false
  end.

(** Lines 159-165: the test on the two route parameters. *)
Definition paramsAreIntegers (userid year : string) : bool :=
  isInteger (parseInt10 userid) && isInteger (parseInt10 year).

(** Every character of [s] satisfies [p]. *)
Fixpoint allChars (p : ascii -> bool) (s : string) : bool :=
  match s with
  | EmptyString => true
  | String c rest => p c && allChars p rest
  end.

(** [s] begins with a character satisfying [p]. *)
Definition startsWith (p : ascii -> bool) (s : string) : bool :=
  match s with
  | EmptyString => false
  | String c _ => p c
  end.

(** What [parseFloat] does once the sign is read, on text that begins
    with a digit or a point. *)
Definition unsignedLiteral (neg : bool) (s1 : string) : float :=
  let '(ip, s2) := spanDigits s1 in
  let '(fp, s3) :=
    match s2 with
    | String "." r => spanDigits r
    | _ => (EmptyString, s2)
    end in
  match (ip ++ fp)%string with
  | EmptyString => nan
  | ds => decimalToFloat neg (digitsValue ds)
            (exponentPart s3 - Z.of_nat (String.length fp))
  end.

(** * Properties *)

Local Open Scope list_scope.

(** ** [findIndex] *)

Lemma findIndexFrom_none {A} (p : A -> bool) (arr : list A) (i : Z) :
  0 <= i ->
  (findIndexFrom p i arr = -1 <-> forall x, In x arr -> p x = false).
Proof.
  revert i; induction arr as [|x rest IH]; intros i Hi; simpl.
  - split; [intros _ y [] | reflexivity].
  - destruct (p x) eqn:Hx.
    + split.
      * intros E; lia.
      * intros H; specialize (H x (or_introl eq_refl)); congruence.
    + rewrite (IH (i + 1)) by lia. split.
      * intros H y [->|Hy]; [assumption | now apply H].
      * intros H y Hy; apply H; now right.
Qed.

Lemma findIndexFrom_found {A} (p : A -> bool) (arr : list A) (i : Z) :
  0 <= i ->
  findIndexFrom p i arr <> -1 ->
  exists k x,
    findIndexFrom p i arr = i + Z.of_nat k /\
    nth_error arr k = Some x /\ p x = true /\
    (forall j y, (j < k)%nat -> nth_error arr j = Some y -> p y = false).
Proof.
  revert i; induction arr as [|x rest IH]; intros i Hi; simpl.
  - intros H; now elim H.
  - destruct (p x) eqn:Hx.
    + intros _. exists 0%nat, x. repeat split; simpl; auto; lia.
    + intros H. destruct (IH (i + 1) ltac:(lia) H) as (k & y & E & Hn & Hp & Hlt).
      exists (S k), y. repeat split; simpl; auto; try lia.
      intros [|j] z Hj Hz; simpl in Hz.
      * now inversion Hz; subst.
      * apply (Hlt j z); [lia | assumption].
Qed.

(** ** Label tests *)

Lemma isMonthLabel_iff (x : string) :
  isMonthLabel x = true <-> x = "month" \/ x = "months".
Proof.
  unfold isMonthLabel, includes; simpl.
  rewrite !orb_true_iff, !String.eqb_eq. intuition congruence.
Qed.

Lemma isAmountLabel_iff (x : string) :
  isAmountLabel x = true <-> x = "amount" \/ x = "value" \/ x = "amt".
Proof.
  unfold isAmountLabel, includes; simpl.
  rewrite !orb_true_iff, !String.eqb_eq. intuition congruence.
Qed.

Lemma labels_disjoint (x : string) :
  isMonthLabel x = true -> isAmountLabel x = true -> False.
Proof.
  rewrite isMonthLabel_iff, isAmountLabel_iff.
  intros [-> | ->] [H | [H | H]]; discriminate H.
Qed.

(** [findIndex] over the normalized row, read back on the row itself. *)
Lemma findIndex_norm_none (q : string -> bool) (row : Row) :
  findIndex q (map normLabel row) = -1 <->
  forall c, In c row -> q (normLabel c) = false.
Proof.
  unfold findIndex. rewrite findIndexFrom_none by lia. split.
  - intros H c Hc. apply H, in_map, Hc.
  - intros H x Hx. apply in_map_iff in Hx as (c & <- & Hc). now apply H.
Qed.

Lemma findIndex_norm_found (q : string -> bool) (row : Row) :
  findIndex q (map normLabel row) <> -1 ->
  let i := findIndex q (map normLabel row) in
  0 <= i /\
  (exists c, nth_error row (Z.to_nat i) = Some c /\ q (normLabel c) = true) /\
  (forall j c, (j < Z.to_nat i)%nat -> nth_error row j = Some c ->
               q (normLabel c) = false).
Proof.
  intros H. unfold findIndex in *.
  destruct (findIndexFrom_found q (map normLabel row) 0 ltac:(lia) H)
    as (k & x & E & Hn & Hp & Hlt).
  cbv zeta. rewrite E. replace (Z.to_nat (0 + Z.of_nat k)) with k by lia.
  split; [lia|]. split.
  - rewrite nth_error_map in Hn. destruct (nth_error row k) as [c|] eqn:Hc;
      [|discriminate]. exists c. split; [reflexivity|]. now inversion Hn; subst.
  - intros j c Hj Hc. apply (Hlt j (normLabel c) Hj).
    rewrite nth_error_map, Hc. reflexivity.
Qed.

(** ** The header search *)

Lemma row_test_iff (row : Row) :
  negb (findIndex isMonthLabel (map normLabel row) =? -1)
  && negb (findIndex isAmountLabel (map normLabel row) =? -1) = true
  <-> Qualifies row.
Proof.
  rewrite andb_true_iff, !negb_true_iff, !Z.eqb_neq. unfold Qualifies. split.
  - intros [Hm Ha].
    destruct (findIndex_norm_found _ _ Hm) as (_ & (c & Hc & Hq) & _).
    destruct (findIndex_norm_found _ _ Ha) as (_ & (c' & Hc' & Hq') & _).
    split.
    + exists c. split; [eapply nth_error_In; eauto | now apply isMonthLabel_iff].
    + exists c'. split; [eapply nth_error_In; eauto | now apply isAmountLabel_iff].
  - intros [(c & Hc & Hm) (c' & Hc' & Ha)]. split.
    + intros E. rewrite findIndex_norm_none in E.
      apply isMonthLabel_iff in Hm. rewrite (E c Hc) in Hm. discriminate.
    + intros E. rewrite findIndex_norm_none in E.
      apply isAmountLabel_iff in Ha. rewrite (E c' Hc') in Ha. discriminate.
Qed.

Lemma firstAt_month (row : Row) :
  findIndex isMonthLabel (map normLabel row) <> -1 ->
  FirstAt MonthLabel row (findIndex isMonthLabel (map normLabel row)).
Proof.
  intros H. destruct (findIndex_norm_found _ _ H) as (H0 & (c & Hc & Hq) & Hlt).
  split; [assumption|]. split.
  - exists c. split; [assumption | now apply isMonthLabel_iff].
  - intros j c' Hj Hc' Hm. apply isMonthLabel_iff in Hm.
    rewrite (Hlt j c' Hj Hc') in Hm. discriminate.
Qed.

Lemma firstAt_amount (row : Row) :
  findIndex isAmountLabel (map normLabel row) <> -1 ->
  FirstAt AmountLabel row (findIndex isAmountLabel (map normLabel row)).
Proof.
  intros H. destruct (findIndex_norm_found _ _ H) as (H0 & (c & Hc & Hq) & Hlt).
  split; [assumption|]. split.
  - exists c. split; [assumption | now apply isAmountLabel_iff].
  - intros j c' Hj Hc' Hm. apply isAmountLabel_iff in Hm.
    rewrite (Hlt j c' Hj Hc') in Hm. discriminate.
Qed.

(** A row that does not qualify is passed over. *)
Lemma headerLoop_skip (r : Z) (row : Row) (rest : list Row) :
  ~ Qualifies row -> headerLoop r (row :: rest) = (if r <? 30 then headerLoop (r + 1) rest else None).
Proof.
  intros H. simpl. destruct (r <? 30); [|reflexivity].
  destruct (negb _ && negb _) eqn:E; [|reflexivity].
  apply row_test_iff in E. contradiction.
Qed.

(** What the loop returns when entered at row [r]. *)
Lemma headerLoop_spec (rows : list Row) : forall r, 0 <= r ->
  match headerLoop r rows with
  | None =>
      forall k row, r + Z.of_nat k < 30 -> nth_error rows k = Some row ->
                    ~ Qualifies row
  | Some h =>
      exists k row,
        headerRow h = r + Z.of_nat k /\ headerRow h < 30 /\
        nth_error rows k = Some row /\ Qualifies row /\
        (forall j row', (j < k)%nat -> nth_error rows j = Some row' ->
                        ~ Qualifies row') /\
        FirstAt MonthLabel row (monthIdx h) /\
        FirstAt AmountLabel row (amountIdx h)
  end.
Proof.
  induction rows as [|row rest IH]; intros r Hr; simpl.
  - intros [|k] row' _ H; discriminate H.
  - destruct (r <? 30) eqn:Hlt.
    + apply Z.ltb_lt in Hlt.
      destruct (negb _ && negb _) eqn:E.
      * pose proof E as Q. apply row_test_iff in Q.
        apply andb_true_iff in E as [Em Ea].
        apply negb_true_iff, Z.eqb_neq in Em, Ea.
        exists 0%nat, row. simpl.
        split; [lia|]. split; [lia|]. split; [reflexivity|]. split; [exact Q|].
        split; [intros j row' Hj; lia|].
        split; [apply (firstAt_month row Em) | apply (firstAt_amount row Ea)].
      * assert (Hnq : ~ Qualifies row).
        { intros Q. apply row_test_iff in Q. congruence. }
        specialize (IH (r + 1) ltac:(lia)).
        destruct (headerLoop (r + 1) rest) as [h|].
        -- destruct IH as (k & row' & E1 & E2 & E3 & E4 & E5 & E6 & E7).
           exists (S k), row'. simpl.
           split; [lia|]. split; [lia|]. split; [exact E3|]. split; [exact E4|].
           split; [|split; assumption].
           intros [|j] row'' Hj Hn; simpl in Hn.
           ++ now inversion Hn; subst.
           ++ apply (E5 j row''); [lia | assumption].
        -- intros [|k] row' Hk Hn; simpl in Hn.
           ++ now inversion Hn; subst.
           ++ apply (IH k row'); [lia | assumption].
    + apply Z.ltb_ge in Hlt. intros k row' Hk; lia.
Qed.

(** The header search in terms of [normLabel]: when it fails, and what it
    returns. *)
Lemma headerSearch_on_normLabel (rows : list Row) :
  (findHeaderIndexes rows = None <->
   forall r row, (r < 30)%nat -> nth_error rows r = Some row -> ~ Qualifies row)
  /\
  ((exists r row, (r < 30)%nat /\ nth_error rows r = Some row /\ Qualifies row) ->
   exists h, findHeaderIndexes rows = Some h)
  /\
  (forall h, findHeaderIndexes rows = Some h ->
     exists row,
       0 <= headerRow h < 30 /\
       nth_error rows (Z.to_nat (headerRow h)) = Some row /\
       Qualifies row /\
       (forall r row', (r < Z.to_nat (headerRow h))%nat ->
                       nth_error rows r = Some row' -> ~ Qualifies row') /\
       FirstAt MonthLabel row (monthIdx h) /\
       FirstAt AmountLabel row (amountIdx h)).
Proof.
  unfold findHeaderIndexes.
  pose proof (headerLoop_spec rows 0 ltac:(lia)) as S.
  destruct (headerLoop 0 rows) as [h|].
  - destruct S as (k & row & E1 & E2 & E3 & E4 & E5 & E6 & E7).
    assert (Hk : Z.to_nat (headerRow h) = k) by lia.
    split; [|split].
    + split; [discriminate|]. intros H. exfalso.
      apply (H k row); [lia | assumption | assumption].
    + intros _. now exists h.
    + intros h' Hh'. inversion Hh'; subst h'. exists row. rewrite Hk.
      repeat split; try lia; try assumption; try apply E4; try apply E6;
        try apply E7.
  - split; [|split].
    + split; [|reflexivity]. intros _ r row Hr Hn. apply (S r row); [lia | assumption].
    + intros (r & row & Hr & Hn & Q). exfalso. apply (S r row); [lia | assumption | assumption].
    + intros h Hh. discriminate Hh.
Qed.

(** Rows 30 and beyond are never looked at: a header on row 30 is not
    found, and one on row 29 is. *)
Example header_window :
  findHeaderIndexes (repeat [] 30 ++ [[CText "Month"; CText "Amount"]]) = None /\
  findHeaderIndexes (repeat [] 29 ++ [[CText "Month"; CText "Amount"]])
  = Some (mkHeaderInfo 29 0 1).
Proof. split; vm_compute; reflexivity. Qed.

(** C9. A cell counts as a month label, or as an amount label, exactly
    when its trimmed, lower-cased, whitespace-stripped text equals one of
    the synonyms; text that merely contains a synonym, such as "Monthly" or
    "Amount ($)", does not count, and a row made of such cells is no
    header. *)
Theorem label_match_is_equality (c : Cell) :
  (isMonthLabel (normLabel c) = true <-> MonthLabel c) /\
  (isAmountLabel (normLabel c) = true <-> AmountLabel c) /\
  isMonthLabel (normLabel (CText "Monthly")) = false /\
  isAmountLabel (normLabel (CText "Amount ($)")) = false /\
  findHeaderIndexes [[CText "Monthly"; CText "Amount ($)"]] = None /\
  findHeaderIndexes [[CText "  MONTHS "; CText "A m t"]] = Some (mkHeaderInfo 0 0 1).
Proof.
  split; [apply isMonthLabel_iff|]. split; [apply isAmountLabel_iff|].
  repeat split; vm_compute; reflexivity.
Qed.

(** C10. In every result of the header search the month column and the
    amount column differ. *)
Theorem header_columns_differ (rows : list Row) (h : HeaderInfo) :
  findHeaderIndexes rows = Some h -> monthIdx h <> amountIdx h.
Proof.
  intros H E. unfold findHeaderIndexes in H.
  pose proof (headerLoop_spec rows 0 ltac:(lia)) as S. rewrite H in S.
  destruct S as (k & row & _ & _ & _ & _ & _ & Fm & Fa).
  destruct Fm as (_ & (c & Hc & Hm) & _).
  destruct Fa as (_ & (c' & Hc' & Ha) & _).
  rewrite E in Hc. rewrite Hc in Hc'. inversion Hc'; subst c'.
  apply isMonthLabel_iff in Hm. apply isAmountLabel_iff in Ha.
  exact (labels_disjoint _ Hm Ha).
Qed.

Lemma header_columns_differ_witness :
  findHeaderIndexes [[CNull]; [CText "Amount"; CNum 2023; CText "Month"]]
  = Some (mkHeaderInfo 1 2 0) /\
  monthIdx (mkHeaderInfo 1 2 0) <> amountIdx (mkHeaderInfo 1 2 0).
Proof.
  split.
  - vm_compute; reflexivity.
  - apply (header_columns_differ
             [[CNull]; [CText "Amount"; CNum 2023; CText "Month"]]).
    vm_compute; reflexivity.
Defined.

(** ** The row loop *)

Section RowLoop.

Variable dateStringMonth : string -> option Z.
Variable h : HeaderInfo.

Let step := normalizeStep dateStringMonth h.

Lemma normalizeStep_push (acc : list NormalizedRecord) (r : Row) :
  step acc r = acc ++ step [] r.
Proof.
  unfold step, normalizeStep.
  destruct (monthStringToIndex dateStringMonth (cellAt r (monthIdx h)));
    destruct (parseAmount (cellAt r (amountIdx h))); simpl;
    now rewrite ?app_nil_r.
Qed.

Lemma fold_normalizeStep (rows : list Row) : forall acc,
  fold_left step rows acc = acc ++ flat_map (step []) rows.
Proof.
  induction rows as [|r rest IH]; intros acc; simpl.
  - now rewrite app_nil_r.
  - rewrite IH, (normalizeStep_push acc r), app_assoc. reflexivity.
Qed.

(** The array built by the loop holds, in row order, what each row
    pushes on its own. *)
Lemma normalizeRows_flat_map (rows : list Row) :
  normalizeRows dateStringMonth h rows = flat_map (step []) rows.
Proof. unfold normalizeRows. apply (fold_normalizeStep rows []). Qed.

Lemma normalizeRows_app (rows1 rows2 : list Row) :
  normalizeRows dateStringMonth h (rows1 ++ rows2)
  = normalizeRows dateStringMonth h rows1 ++ normalizeRows dateStringMonth h rows2.
Proof. rewrite !normalizeRows_flat_map. apply flat_map_app. Qed.

Lemma step_unresolved (r : Row) :
  Unresolved dateStringMonth h r -> step [] r = [].
Proof.
  unfold step, normalizeStep. intros [E|E]; rewrite E; [reflexivity|].
  now destruct (monthStringToIndex dateStringMonth (cellAt r (monthIdx h))).
Qed.

Lemma step_resolves (r : Row) (mi amt : float) :
  Resolves dateStringMonth h r mi amt -> step [] r = [mkRecord (mi + 1)%float amt].
Proof. unfold step, normalizeStep. intros [E1 E2]. now rewrite E1, E2. Qed.

Lemma step_cases (r : Row) :
  Unresolved dateStringMonth h r \/
  exists mi amt, Resolves dateStringMonth h r mi amt.
Proof.
  unfold Unresolved, Resolves.
  destruct (monthStringToIndex dateStringMonth (cellAt r (monthIdx h)))
    as [mi|]; [|now left; left].
  destruct (parseAmount (cellAt r (amountIdx h))) as [amt|]; [|now left; right].
  right. now exists mi, amt.
Qed.

Lemma normalizeRows_cons (r : Row) (rows : list Row) :
  normalizeRows dateStringMonth h (r :: rows)
  = step [] r ++ normalizeRows dateStringMonth h rows.
Proof. rewrite !normalizeRows_flat_map. reflexivity. Qed.

(** Empty rows push nothing, so filtering them out changes nothing. *)
Lemma normalizeRows_filter (rows : list Row) :
  normalizeRows dateStringMonth h (filter nonEmptyRow rows)
  = normalizeRows dateStringMonth h rows.
Proof.
  induction rows as [|r rest IH]; [reflexivity|]. simpl.
  destruct r as [|c r]; simpl.
  - rewrite normalizeRows_cons, IH.
    assert (E : step [] [] = []).
    { apply step_unresolved. left. unfold cellAt.
      destruct (monthIdx h <? 0); [reflexivity|].
      now destruct (Z.to_nat (monthIdx h)). }
    now rewrite E.
  - now rewrite !normalizeRows_cons, IH.
Qed.

End RowLoop.

(** ** The route *)

Section Route.

Variable dateStringMonth : string -> option Z.

(** Once a header is found, the outcome is decided by the rows after
    it. *)
Lemma ingest_found (rows : list Row) (h : HeaderInfo) :
  findHeaderIndexes rows = Some h ->
  ingest dateStringMonth rows
  = match normalizeRows dateStringMonth h (rowsAfter h rows) with
    | [] => Failure NoValidRows
    | normalized => Success normalized
    end.
Proof.
  intros H. unfold ingest. destruct rows as [|r0 rows]; [discriminate H|].
  rewrite H. unfold dataRowsOf. rewrite normalizeRows_filter. reflexivity.
Qed.

Lemma normalizeRows_all_unresolved (h : HeaderInfo) (rows : list Row) :
  (forall r, In r rows -> Unresolved dateStringMonth h r) ->
  normalizeRows dateStringMonth h rows = [].
Proof.
  induction rows as [|r rest IH]; intros H; [reflexivity|].
  rewrite normalizeRows_cons, (step_unresolved _ _ r) by (apply H; now left).
  apply IH. intros r' Hr'. apply H. now right.
Qed.

Lemma normalizeRows_In (h : HeaderInfo) (rows : list Row) (r : Row)
      (mi amt : float) :
  In r rows -> Resolves dateStringMonth h r mi amt ->
  In (mkRecord (mi + 1)%float amt) (normalizeRows dateStringMonth h rows).
Proof.
  intros Hin Hr. rewrite normalizeRows_flat_map. apply in_flat_map.
  exists r. split; [assumption|]. rewrite (step_resolves _ _ r mi amt Hr).
  now left.
Qed.

(** Text that the date reader rejects is resolved by the digit rule and
    the name tables. *)
Lemma month_of_rejected_text (s : string) :
  dateStringMonth (toLowerCase (trim s)) = None ->
  monthStringToIndex dateStringMonth (CText s)
  = (digitStringRule (removeDotsAndCommas (toLowerCase (trim s)))
     <|> nameRule (removeDotsAndCommas (toLowerCase (trim s)))).
Proof.
  intros H. unfold monthStringToIndex, monthOfText.
  change (jsString (CText s)) with s. rewrite H. reflexivity.
Qed.

Lemma month_of_date_text (s : string) (m : Z) :
  dateStringMonth (toLowerCase (trim s)) = Some m ->
  monthStringToIndex dateStringMonth (CText s) = Some (ofZ m).
Proof.
  intros H. unfold monthStringToIndex, monthOfText.
  change (jsString (CText s)) with s. rewrite H. reflexivity.
Qed.

End Route.

(** C6. No run ends in success with an empty list; and when a header is
    found but every row after it fails to resolve its month or its amount
    (in particular when there is no row after it), the run ends with
    [NoValidRows]. *)
Theorem no_empty_success (dateStringMonth : string -> option Z)
        (rows : list Row) :
  (forall normalized, ingest dateStringMonth rows = Success normalized ->
                      normalized <> []) /\
  (forall h, findHeaderIndexes rows = Some h ->
             (forall r, In r (rowsAfter h rows) -> Unresolved dateStringMonth h r) ->
             ingest dateStringMonth rows = Failure NoValidRows).
Proof.
  split.
  - intros l H ->. unfold ingest in H. destruct rows; [discriminate|].
    destruct (findHeaderIndexes _); [|discriminate].
    destruct (normalizeRows _ _ _); discriminate.
  - intros h Hh Hall. rewrite (ingest_found _ _ h Hh).
    now rewrite normalizeRows_all_unresolved.
Qed.

Lemma no_empty_success_witness :
  findHeaderIndexes
    [[CText "Month"; CText "Amount"]; [CText "total"; CNum 10]; [CNum 4; CText "n/a"]]
  = Some (mkHeaderInfo 0 0 1) /\
  ingest bareNumberDates
    [[CText "Month"; CText "Amount"]; [CText "total"; CNum 10]; [CNum 4; CText "n/a"]]
  = Failure NoValidRows /\
  ingest bareNumberDates [[CText "Month"; CText "Amount"]] = Failure NoValidRows.
Proof.
  split; [vm_compute; reflexivity|]. split.
  - apply (proj2 (no_empty_success bareNumberDates _) (mkHeaderInfo 0 0 1)).
    + vm_compute; reflexivity.
    + intros r [<-|[<-|[]]]; [left | right]; vm_compute; reflexivity.
  - apply (proj2 (no_empty_success bareNumberDates _) (mkHeaderInfo 0 0 1)).
    + vm_compute; reflexivity.
    + intros r [].
Defined.

(** C8. Rows are handled independently of one another: the list built
    from a sequence of rows is the concatenation of what each part builds;
    a row whose month or amount is unresolved adds nothing and changes
    nothing for the others; a row that resolves adds its record whatever
    surrounds it; and once a header is found, any row after it that
    resolves makes the run a success holding that row's record. *)
Theorem rows_are_independent (dateStringMonth : string -> option Z) :
  (forall h rows1 rows2,
      normalizeRows dateStringMonth h (rows1 ++ rows2)
      = normalizeRows dateStringMonth h rows1 ++ normalizeRows dateStringMonth h rows2) /\
  (forall h rows1 r rows2,
      Unresolved dateStringMonth h r ->
      normalizeRows dateStringMonth h (rows1 ++ r :: rows2)
      = normalizeRows dateStringMonth h (rows1 ++ rows2)) /\
  (forall h rows1 r rows2 mi amt,
      Resolves dateStringMonth h r mi amt ->
      normalizeRows dateStringMonth h (rows1 ++ r :: rows2)
      = normalizeRows dateStringMonth h rows1
        ++ mkRecord (mi + 1)%float amt :: normalizeRows dateStringMonth h rows2) /\
  (forall rows h r mi amt,
      findHeaderIndexes rows = Some h ->
      In r (rowsAfter h rows) ->
      Resolves dateStringMonth h r mi amt ->
      exists normalized,
        ingest dateStringMonth rows = Success normalized /\
        In (mkRecord (mi + 1)%float amt) normalized).
Proof.
  split; [|split; [|split]].
  - intros h rows1 rows2. apply normalizeRows_app.
  - intros h rows1 r rows2 U.
    rewrite !normalizeRows_app, normalizeRows_cons, (step_unresolved _ _ r U).
    reflexivity.
  - intros h rows1 r rows2 mi amt R.
    rewrite normalizeRows_app, normalizeRows_cons, (step_resolves _ _ r mi amt R).
    reflexivity.
  - intros rows h r mi amt Hh Hin R.
    pose proof (normalizeRows_In dateStringMonth h _ r mi amt Hin R) as Hrec.
    rewrite (ingest_found _ _ h Hh).
    destruct (normalizeRows dateStringMonth h (rowsAfter h rows)) as [|x l];
      [destruct Hrec|].
    exists (x :: l). split; [reflexivity | assumption].
Qed.

Lemma rows_are_independent_witness :
  Unresolved bareNumberDates (mkHeaderInfo 0 0 1) [CText "Jan"; CText "n/a"] /\
  Resolves bareNumberDates (mkHeaderInfo 0 0 1) [CText "Feb"; CNum 20] 1 20 /\
  normalizeRows bareNumberDates (mkHeaderInfo 0 0 1)
    ([] ++ [CText "Jan"; CText "n/a"] :: [[CText "Feb"; CNum 20]])
  = normalizeRows bareNumberDates (mkHeaderInfo 0 0 1) ([] ++ [[CText "Feb"; CNum 20]]) /\
  exists normalized,
    ingest bareNumberDates
      [[CText "Month"; CText "Amount"]; [CText "Jan"; CText "n/a"]; [CText "Feb"; CNum 20]]
    = Success normalized /\
    In (mkRecord (1 + 1)%float 20) normalized.
Proof.
  assert (U : Unresolved bareNumberDates (mkHeaderInfo 0 0 1) [CText "Jan"; CText "n/a"])
    by (right; vm_compute; reflexivity).
  assert (R : Resolves bareNumberDates (mkHeaderInfo 0 0 1) [CText "Feb"; CNum 20] 1 20)
    by (split; vm_compute; reflexivity).
  destruct (rows_are_independent bareNumberDates) as (_ & Hdrop & _ & Hkeep).
  split; [exact U|]. split; [exact R|]. split.
  - exact (Hdrop (mkHeaderInfo 0 0 1) [] _ [[CText "Feb"; CNum 20]] U).
  - apply (Hkeep _ (mkHeaderInfo 0 0 1) [CText "Feb"; CNum 20] 1%float 20%float).
    + vm_compute; reflexivity.
    + right; left; reflexivity.
    + exact R.
Defined.

(** ** Several rows for one month *)

(** C1, as the code has it.  The list [normalized] that the route hands
    to the inserts holds one record for every row that resolves, in row
    order, and nothing else: rows for the same month are all kept.  The
    record of a row is followed only by records of later rows, so the last
    record of a month carries the amount of the last row of that month.
    Two March rows, 100 then 150, give two records, (3, 100) then
    (3, 150). *)
Theorem normalized_keeps_every_row (dateStringMonth : string -> option Z)
        (Hmarch : dateStringMonth "march" = None) :
  (forall h rows,
      normalizeRows dateStringMonth h rows
      = flat_map (normalizeStep dateStringMonth h []) rows) /\
  (forall h r, Unresolved dateStringMonth h r ->
               normalizeStep dateStringMonth h [] r = []) /\
  (forall h r mi amt, Resolves dateStringMonth h r mi amt ->
               normalizeStep dateStringMonth h [] r = [mkRecord (mi + 1)%float amt]) /\
  (forall h pre r post mi amt,
      Resolves dateStringMonth h r mi amt ->
      (forall r' mi' amt', In r' post -> Resolves dateStringMonth h r' mi' amt' ->
                           (mi' + 1)%float <> (mi + 1)%float) ->
      exists later,
        normalizeRows dateStringMonth h (pre ++ r :: post)
        = normalizeRows dateStringMonth h pre ++ mkRecord (mi + 1)%float amt :: later /\
        forall x, In x later -> monthNum x <> (mi + 1)%float) /\
  ingest dateStringMonth
    [[CText "Month"; CText "Amount"]; [CText "March"; CNum 100]; [CText "March"; CNum 150]]
  = Success [mkRecord 3 100; mkRecord 3 150].
Proof.
  split; [|split; [|split; [|split]]].
  - intros h rows. apply normalizeRows_flat_map.
  - intros h r. apply step_unresolved.
  - intros h r mi amt. apply step_resolves.
  - intros h pre r post mi amt R Hlater.
    exists (normalizeRows dateStringMonth h post). split.
    + rewrite normalizeRows_app, normalizeRows_cons, (step_resolves _ _ r mi amt R).
      reflexivity.
    + intros x Hx. rewrite normalizeRows_flat_map in Hx.
      apply in_flat_map in Hx as (r' & Hr' & Hx).
      destruct (step_cases dateStringMonth h r') as [U|(mi' & amt' & R')].
      * rewrite (step_unresolved _ _ r' U) in Hx. destruct Hx.
      * rewrite (step_resolves _ _ r' mi' amt' R') in Hx.
        destruct Hx as [<-|[]]. simpl. exact (Hlater r' mi' amt' Hr' R').
  - assert (M : monthStringToIndex dateStringMonth (CText "March") = Some 2%float).
    { rewrite month_of_rejected_text by exact Hmarch. vm_compute; reflexivity. }
    rewrite (ingest_found _ _ (mkHeaderInfo 0 0 1)) by (vm_compute; reflexivity).
    change (rowsAfter _ _)
      with [[CText "March"; CNum 100]; [CText "March"; CNum 150]].
    rewrite !normalizeRows_cons.
    rewrite (step_resolves _ _ [CText "March"; CNum 100] 2%float 100%float)
      by (split; [exact M | reflexivity]).
    rewrite (step_resolves _ _ [CText "March"; CNum 150] 2%float 150%float)
      by (split; [exact M | reflexivity]).
    reflexivity.
Qed.

Lemma normalized_keeps_every_row_witness :
  bareNumberDates "march" = None /\
  ingest bareNumberDates
    [[CText "Month"; CText "Amount"]; [CText "March"; CNum 100]; [CText "March"; CNum 150]]
  = Success [mkRecord 3 100; mkRecord 3 150].
Proof.
  split; [reflexivity|].
  apply (normalized_keeps_every_row bareNumberDates). reflexivity.
Defined.

(** "A single March entry equal to 150, not two entries" is not what the
    route builds: on two March rows, 100 then 150, whether March is written
    as text or as the number 3, it hands over two March records. *)
Lemma march_twice_gives_two_records :
  ingest bareNumberDates
    [[CText "Month"; CText "Amount"]; [CText "March"; CNum 100]; [CText "March"; CNum 150]]
  = Success [mkRecord 3 100; mkRecord 3 150] /\
  ingest bareNumberDates
    [[CText "Month"; CText "Amount"]; [CNum 3; CNum 100]; [CNum 3; CNum 150]]
  = Success [mkRecord 3 100; mkRecord 3 150].
Proof. split; vm_compute; reflexivity. Qed.

(** ** The end-to-end scenario *)

Lemma not_qualifies_by_test (row : Row) :
  negb (findIndex isMonthLabel (map normLabel row) =? -1)
  && negb (findIndex isAmountLabel (map normLabel row) =? -1) = false ->
  ~ Qualifies row.
Proof. intros E Q. apply row_test_iff in Q. congruence. Qed.

(** C3. Two rows that are no header, then ["Month","Amount"], then
    ["Jan",100], ["February","$50.25"], ["garbage","N/A"], ["3",75]: the
    run succeeds with the records 1:100, 2:50.25, 3:75.  The date reader is
    any one that rejects "jan" and "february" and that reads "3", if it
    reads it at all, as a date in March. *)
Theorem end_to_end_scenario (dateStringMonth : string -> option Z)
        (noise1 noise2 : Row) :
  ~ Qualifies noise1 -> ~ Qualifies noise2 ->
  dateStringMonth "jan" = None ->
  dateStringMonth "february" = None ->
  dateStringMonth "3" = None \/ dateStringMonth "3" = Some 2 ->
  ingest dateStringMonth
    [ noise1; noise2;
      [CText "Month"; CText "Amount"];
      [CText "Jan"; CNum 100];
      [CText "February"; CText "$50.25"];
      [CText "garbage"; CText "N/A"];
      [CText "3"; CNum 75] ]
  = Success [mkRecord 1 100; mkRecord 2 50.25; mkRecord 3 75].
Proof.
  intros N1 N2 Hjan Hfeb H3.
  set (h := mkHeaderInfo 2 0 1).
  assert (Hh : findHeaderIndexes
                 [ noise1; noise2; [CText "Month"; CText "Amount"];
                   [CText "Jan"; CNum 100]; [CText "February"; CText "$50.25"];
                   [CText "garbage"; CText "N/A"]; [CText "3"; CNum 75] ]
               = Some h).
  { unfold findHeaderIndexes.
    rewrite (headerLoop_skip 0 noise1 _ N1). change (0 <? 30) with true. cbv iota.
    rewrite (headerLoop_skip (0 + 1) noise2 _ N2). vm_compute; reflexivity. }
  rewrite (ingest_found _ _ h Hh).
  change (rowsAfter h _)
    with [ [CText "Jan"; CNum 100]; [CText "February"; CText "$50.25"];
           [CText "garbage"; CText "N/A"]; [CText "3"; CNum 75] ].
  assert (M3 : monthStringToIndex dateStringMonth (CText "3") = Some 2%float).
  { destruct H3 as [E|E].
    - rewrite month_of_rejected_text by exact E. vm_compute; reflexivity.
    - rewrite (month_of_date_text _ "3" 2) by exact E. vm_compute; reflexivity. }
  rewrite !normalizeRows_cons.
  rewrite (step_resolves _ h [CText "Jan"; CNum 100] 0%float 100%float).
  2:{ split; [|reflexivity]. change (cellAt _ (monthIdx h)) with (CText "Jan").
      rewrite month_of_rejected_text by exact Hjan. vm_compute; reflexivity. }
  rewrite (step_resolves _ h [CText "February"; CText "$50.25"] 1%float 50.25%float).
  2:{ split; [|vm_compute; reflexivity].
      change (cellAt _ (monthIdx h)) with (CText "February").
      rewrite month_of_rejected_text by exact Hfeb. vm_compute; reflexivity. }
  rewrite (step_unresolved _ h [CText "garbage"; CText "N/A"])
    by (right; vm_compute; reflexivity).
  rewrite (step_resolves _ h [CText "3"; CNum 75] 2%float 75%float)
    by (split; [exact M3 | reflexivity]).
  reflexivity.
Qed.

Lemma end_to_end_scenario_witness :
  ~ Qualifies [CText "Acme Ltd"; CNull; CText "Monthly amounts"] /\
  ~ Qualifies [] /\
  bareNumberDates "jan" = None /\
  bareNumberDates "february" = None /\
  bareNumberDates "3" = Some 2 /\
  ingest bareNumberDates
    [ [CText "Acme Ltd"; CNull; CText "Monthly amounts"]; [];
      [CText "Month"; CText "Amount"];
      [CText "Jan"; CNum 100];
      [CText "February"; CText "$50.25"];
      [CText "garbage"; CText "N/A"];
      [CText "3"; CNum 75] ]
  = Success [mkRecord 1 100; mkRecord 2 50.25; mkRecord 3 75].
Proof.
  assert (N1 : ~ Qualifies [CText "Acme Ltd"; CNull; CText "Monthly amounts"])
    by (apply not_qualifies_by_test; vm_compute; reflexivity).
  assert (N2 : ~ Qualifies [])
    by (apply not_qualifies_by_test; vm_compute; reflexivity).
  split; [exact N1|]. split; [exact N2|].
  split; [reflexivity|]. split; [reflexivity|]. split; [reflexivity|].
  apply (end_to_end_scenario bareNumberDates _ _ N1 N2);
    [reflexivity | reflexivity | right; reflexivity].
Defined.

(** ** Month resolution *)

Lemma ofZ_pred_small (n : Z) :
  1 <= n <= 12 -> (ofZ n - 1)%float = ofZ (n - 1).
Proof.
  intros H.
  assert (E : n = 1 \/ n = 2 \/ n = 3 \/ n = 4 \/ n = 5 \/ n = 6 \/ n = 7 \/
              n = 8 \/ n = 9 \/ n = 10 \/ n = 11 \/ n = 12) by lia.
  repeat (destruct E as [->|E]; [vm_compute; reflexivity|]).
  subst n. vm_compute; reflexivity.
Qed.

Lemma digitStringRule_some (cleaned : string) (r : float) :
  digitStringRule cleaned = Some r ->
  isOneOrTwoDigits cleaned = true /\
  1 <= digitsValue cleaned <= 12 /\ r = ofZ (digitsValue cleaned - 1).
Proof.
  unfold digitStringRule. destruct (isOneOrTwoDigits cleaned); [|discriminate].
  destruct ((1 <=? digitsValue cleaned) && (digitsValue cleaned <=? 12)) eqn:E;
    [|discriminate].
  apply andb_true_iff in E as [E1 E2]. apply Z.leb_le in E1, E2.
  intros H. inversion H. split; [reflexivity|]. split; [lia|].
  apply ofZ_pred_small. lia.
Qed.





(** A number outside both ranges is read again as text: 32 becomes "32",
    which the date reader takes for the year 2032, hence January. *)
Example number_out_of_range_goes_on_as_text :
  numericRule 32 = None /\
  monthStringToIndex bareNumberDates (CNum 32) = Some 0%float /\
  specMonthResolve bareNumberDates (CNum 32) = None.
Proof. repeat split; vm_compute; reflexivity. Qed.

(** ** Amount parsing *)

Lemma filterChars_filter (keep : ascii -> bool) (s : string) :
  list_ascii_of_string (filterChars keep s)
  = filter keep (list_ascii_of_string s).
Proof.
  induction s as [|c rest IH]; [reflexivity|]. simpl.
  destruct (keep c); simpl; now rewrite IH.
Qed.

Lemma isAmountChar_iff (c : ascii) :
  isAmountChar c = true <-> isDigit c = true \/ c = "."%char \/ c = "-"%char.
Proof.
  unfold isAmountChar. rewrite !orb_true_iff, !Ascii.eqb_eq. tauto.
Qed.

(** C7, as the code has it.  A number is returned unchanged and an absent
    cell is unresolved.  Any other cell is stringified and trimmed, and
    the characters kept are, in order, all its digits, decimal points and
    minus signs, wherever they stand; the kept text is unresolved when it
    is "", "-", "." or "-.", and otherwise is read by [parseFloat], a
    [NaN] result being unresolved, so that no text gives [NaN].  Hence
    "$1,234.50" gives 1234.5, "-" is unresolved, "  42 " gives 42, the
    number 7.5 gives 7.5, and "1-2" gives 1. *)
Theorem parseAmount_behaviour :
  (forall val,
      match val with
      | CNull => parseAmount val = None
      | CNum v => parseAmount val = Some v
      | _ =>
          let s := keepAmountChars (trim (jsString val)) in
          list_ascii_of_string s
          = filter isAmountChar (list_ascii_of_string (trim (jsString val))) /\
          parseAmount val
          = if String.eqb s "" || String.eqb s "-" || String.eqb s "."
               || String.eqb s "-."
            then None
            else if is_nan (parseFloat s) then None else Some (parseFloat s)
      end) /\
  (forall c, isAmountChar c = true <->
             isDigit c = true \/ c = "."%char \/ c = "-"%char) /\
  (forall val x, parseAmount val = Some x -> val = CNum x \/ is_nan x = false) /\
  parseAmount (CText "$1,234.50") = Some 1234.5%float /\
  parseAmount (CText "-") = None /\
  parseAmount (CText "  42 ") = Some 42%float /\
  parseAmount (CNum 7.5) = Some 7.5%float /\
  parseAmount (CText "1-2") = Some 1%float.
Proof.
  split; [|split; [|split]].
  - intros [|v|d|s|b]; try reflexivity; cbv zeta;
      (split; [apply filterChars_filter | reflexivity]).
  - apply isAmountChar_iff.
  - intros val x. destruct val as [|v|d|s|b]; simpl;
      try discriminate;
      try (intros H; inversion H; now left);
      match goal with
      | |- context [if ?b then None else _] => destruct b; [discriminate|]
      end;
      match goal with
      | |- context [is_nan ?f] => destruct (is_nan f) eqn:E; [discriminate|]
      end;
      intros H; inversion H; subst; right; exact E.
  - repeat split; vm_compute; reflexivity.
Qed.

(** Minus signs are kept wherever they stand, not only a leading one:
    "1-2" is read as 1 where the filter as worded would leave "12", and
    "--5" is unresolved where the filter as worded would leave "-5". *)
Lemma inner_minus_signs_are_kept :
  keepAmountChars "1-2" = "1-2" /\ specKeepChars "1-2" = "12" /\
  parseAmount (CText "1-2") = Some 1%float /\
  specParseAmount (CText "1-2") = Some 12%float /\
  parseAmount (CText "--5") = None /\
  specParseAmount (CText "--5") = Some (-5)%float.
Proof. repeat split; vm_compute; reflexivity. Qed.

(** ** Records that are not well formed *)

(** C4 fails on the code.  A numeric month cell is only compared with the
    two ranges, so 1.5 is taken as month index 0.5 and stored as month
    number 1.5; a numeric amount cell is returned as it is, so [NaN] and
    infinities are stored; and a long enough string of digits parses to
    infinity. *)
Theorem ill_formed_records_are_emitted (dateStringMonth : string -> option Z) :
  ingest dateStringMonth [[CText "Month"; CText "Amount"]; [CNum 1.5; CNum 100]]
  = Success [mkRecord 1.5 100] /\
  wellFormed (mkRecord 1.5 100) = false /\
  ingest dateStringMonth [[CText "Month"; CText "Amount"]; [CNum 1; CNum nan]]
  = Success [mkRecord 1 nan] /\
  wellFormed (mkRecord 1 nan) = false /\
  ingest dateStringMonth [[CText "Month"; CText "Amount"]; [CNum 1; CNum infinity]]
  = Success [mkRecord 1 infinity] /\
  wellFormed (mkRecord 1 infinity) = false /\
  parseAmount (CText (String "1" (zeros 309))) = Some infinity /\
  wellFormed (mkRecord 3 100) = true.
Proof.
  assert (R : forall m a mi,
             numericRule m = Some mi ->
             ingest dateStringMonth [[CText "Month"; CText "Amount"]; [CNum m; CNum a]]
             = Success [mkRecord (mi + 1)%float a]).
  { intros m a mi E.
    rewrite (ingest_found _ _ (mkHeaderInfo 0 0 1)) by (vm_compute; reflexivity).
    change (rowsAfter _ _) with [[CNum m; CNum a]].
    rewrite normalizeRows_cons.
    rewrite (step_resolves _ _ [CNum m; CNum a] mi a); [reflexivity|].
    split; [|reflexivity].
    change (cellAt _ _) with (CNum m). unfold monthStringToIndex. now rewrite E. }
  split; [apply (R 1.5%float 100%float 0.5%float); reflexivity|].
  split; [vm_compute; reflexivity|].
  split; [apply (R 1%float nan 0%float); reflexivity|].
  split; [vm_compute; reflexivity|].
  split; [apply (R 1%float infinity 0%float); reflexivity|].
  repeat split; vm_compute; reflexivity.
Qed.


(** * Further properties of the code *)

(** ** Characters and strings *)

Ltac each_char c :=
  destruct c as [[] [] [] [] [] [] [] []]; vm_compute; reflexivity.

Lemma lowerChar_whiteSpace (c : ascii) :
  isWhiteSpace (lowerChar c) = isWhiteSpace c.
Proof. each_char c. Qed.

Lemma lowerChar_idem (c : ascii) : lowerChar (lowerChar c) = lowerChar c.
Proof. each_char c. Qed.

Lemma whiteSpace_not_amountChar (c : ascii) :
  isWhiteSpace c && isAmountChar c = false.
Proof. each_char c. Qed.

Lemma toLowerCase_idem (s : string) : toLowerCase (toLowerCase s) = toLowerCase s.
Proof.
  induction s as [|c rest IH]; [reflexivity|].
  unfold toLowerCase in *. simpl. now rewrite lowerChar_idem, IH.
Qed.

Lemma trimStart_toLowerCase (s : string) :
  trimStart (toLowerCase s) = toLowerCase (trimStart s).
Proof.
  induction s as [|c rest IH]; [reflexivity|].
  unfold toLowerCase in *. simpl. rewrite lowerChar_whiteSpace.
  destruct (isWhiteSpace c); [exact IH | reflexivity].
Qed.

Lemma trimEnd_toLowerCase (s : string) :
  trimEnd (toLowerCase s) = toLowerCase (trimEnd s).
Proof.
  induction s as [|c rest IH]; [reflexivity|].
  unfold toLowerCase in *. simpl. rewrite IH, lowerChar_whiteSpace.
  destruct (trimEnd rest); simpl; [|reflexivity].
  now destruct (isWhiteSpace c).
Qed.

Lemma trim_toLowerCase (s : string) : trim (toLowerCase s) = toLowerCase (trim s).
Proof. unfold trim. now rewrite trimStart_toLowerCase, trimEnd_toLowerCase. Qed.

Lemma trimStart_head (s : string) : startsWith isWhiteSpace (trimStart s) = false.
Proof.
  induction s as [|c rest IH]; [reflexivity|]. simpl.
  destruct (isWhiteSpace c) eqn:E; [exact IH | exact E].
Qed.

Lemma trimStart_fixed (s : string) :
  startsWith isWhiteSpace s = false -> trimStart s = s.
Proof. destruct s as [|c rest]; [reflexivity|]. simpl. now intros ->. Qed.

Lemma trimEnd_head (s : string) :
  startsWith isWhiteSpace s = false -> startsWith isWhiteSpace (trimEnd s) = false.
Proof.
  destruct s as [|c rest]; [reflexivity|]. simpl. intros E.
  destruct (trimEnd rest); [now rewrite E | exact E].
Qed.

Lemma trimEnd_idem (s : string) : trimEnd (trimEnd s) = trimEnd s.
Proof.
  induction s as [|c rest IH]; [reflexivity|]. simpl.
  destruct (trimEnd rest) as [|c' t] eqn:E.
  - destruct (isWhiteSpace c) eqn:W; [reflexivity|]. simpl. now rewrite W.
  - change (trimEnd (String c (String c' t)))
      with (match trimEnd (String c' t) with
            | EmptyString => if isWhiteSpace c then EmptyString else String c EmptyString
            | u => String c u
            end).
    now rewrite IH.
Qed.

Lemma trim_idem (s : string) : trim (trim s) = trim s.
Proof.
  unfold trim.
  rewrite (trimStart_fixed (trimEnd (trimStart s)))
    by (apply trimEnd_head, trimStart_head).
  apply trimEnd_idem.
Qed.

Lemma filterChars_trimStart (p : ascii -> bool) (s : string) :
  (forall c, isWhiteSpace c && p c = false) ->
  filterChars p (trimStart s) = filterChars p s.
Proof.
  intros H. induction s as [|c rest IH]; [reflexivity|]. simpl.
  destruct (isWhiteSpace c) eqn:W; [|reflexivity].
  specialize (H c). rewrite W in H. simpl in H. now rewrite H.
Qed.

Lemma filterChars_trimEnd (p : ascii -> bool) (s : string) :
  (forall c, isWhiteSpace c && p c = false) ->
  filterChars p (trimEnd s) = filterChars p s.
Proof.
  intros H. induction s as [|c rest IH]; [reflexivity|]. simpl.
  destruct (trimEnd rest) as [|c' t] eqn:E.
  - rewrite <- IH. simpl.
    destruct (isWhiteSpace c) eqn:W; [|reflexivity].
    specialize (H c). rewrite W in H. simpl in H. now rewrite H.
  - change (filterChars p (String c (String c' t)))
      with (if p c then String c (filterChars p (String c' t))
            else filterChars p (String c' t)).
    now rewrite IH.
Qed.

Lemma filterChars_trim (p : ascii -> bool) (s : string) :
  (forall c, isWhiteSpace c && p c = false) ->
  filterChars p (trim s) = filterChars p s.
Proof.
  intros H. unfold trim.
  now rewrite filterChars_trimEnd, filterChars_trimStart.
Qed.

Lemma filterChars_idem (p : ascii -> bool) (s : string) :
  filterChars p (filterChars p s) = filterChars p s.
Proof.
  induction s as [|c rest IH]; [reflexivity|]. simpl.
  destruct (p c) eqn:E; simpl; [now rewrite E, IH | exact IH].
Qed.

Lemma filterChars_toLowerCase (p : ascii -> bool) (s : string) :
  (forall c, p (lowerChar c) = p c) ->
  filterChars p (toLowerCase s) = toLowerCase (filterChars p s).
Proof.
  intros H. induction s as [|c rest IH]; [reflexivity|].
  unfold toLowerCase in *. simpl. rewrite H.
  destruct (p c); simpl; now rewrite IH.
Qed.

Lemma filterChars_app (p : ascii -> bool) (a b : string) :
  filterChars p (a ++ b)%string = (filterChars p a ++ filterChars p b)%string.
Proof.
  induction a as [|c rest IH]; [reflexivity|]. simpl.
  destruct (p c); simpl; now rewrite IH.
Qed.

(** ** Month text *)

(** X1. Month resolution of a text cell does not depend on its letter
    case or on whitespace around it: trimming the text or lower-casing it
    beforehand gives the same answer, whatever the date reader. *)
Theorem month_ignores_case_and_padding (dateStringMonth : string -> option Z)
        (s : string) :
  monthStringToIndex dateStringMonth (CText (trim s))
  = monthStringToIndex dateStringMonth (CText s) /\
  monthStringToIndex dateStringMonth (CText (toLowerCase s))
  = monthStringToIndex dateStringMonth (CText s) /\
  monthStringToIndex dateStringMonth (CText (toLowerCase (trim s)))
  = monthStringToIndex dateStringMonth (CText s).
Proof.
  unfold monthStringToIndex, monthOfText.
  change (jsString (CText (trim s))) with (trim s).
  change (jsString (CText (toLowerCase s))) with (toLowerCase s).
  change (jsString (CText (toLowerCase (trim s)))) with (toLowerCase (trim s)).
  change (jsString (CText s)) with s.
  rewrite trim_idem, !trim_toLowerCase, trim_idem, !toLowerCase_idem.
  repeat split; reflexivity.
Qed.

(** ** Amount text *)

Lemma parseAmount_text (s : string) :
  parseAmount (CText s) = parseAmount (CText (keepAmountChars s)).
Proof.
  unfold parseAmount.
  change (jsString (CText s)) with s.
  change (jsString (CText (keepAmountChars s))) with (keepAmountChars s).
  unfold keepAmountChars.
  rewrite !filterChars_trim by apply whiteSpace_not_amountChar.
  now rewrite filterChars_idem.
Qed.

(** X2. A character that is not a digit, a decimal point or a minus sign
    has no effect on the amount read from a text cell, wherever it stands:
    currency signs, letters, commas and spaces inside the number
    included. *)
Theorem amount_ignores_other_characters (a b : string) (c : ascii) :
  isAmountChar c = false ->
  parseAmount (CText (a ++ String c b)) = parseAmount (CText (a ++ b)).
Proof.
  intros H.
  rewrite (parseAmount_text (a ++ String c b)), (parseAmount_text (a ++ b)).
  unfold keepAmountChars. rewrite !filterChars_app. simpl. now rewrite H.
Qed.

Lemma amount_ignores_other_characters_witness :
  isAmountChar "," = false /\
  parseAmount (CText ("1" ++ String "," "234")) = parseAmount (CText ("1" ++ "234")) /\
  parseAmount (CText "1234") = Some 1234%float.
Proof.
  split; [reflexivity|]. split.
  - apply (amount_ignores_other_characters "1" "234" ","). reflexivity.
  - vm_compute; reflexivity.
Defined.

(** ** Header labels *)

Lemma normLabel_text (s : string) :
  normLabel (CText s) = removeWhiteSpace (toLowerCase s).
Proof.
  unfold normLabel, removeWhiteSpace.
  change (jsString (CText s)) with s.
  rewrite <- trim_toLowerCase. apply filterChars_trim.
  intros c. now destruct (isWhiteSpace c).
Qed.

(** X3. On Latin-1 text (the strings of this development, where
    lower-casing works letter by letter) a header label does not depend on
    letter case or on whitespace anywhere in the text: removing all
    whitespace from the text of a cell, or lower-casing it, beforehand
    leaves its normalized label unchanged. *)
Theorem label_ignores_case_and_whitespace (s : string) :
  normLabel (CText (removeWhiteSpace s)) = normLabel (CText s) /\
  normLabel (CText (toLowerCase s)) = normLabel (CText s) /\
  normLabel (CText s) = removeWhiteSpace (toLowerCase s).
Proof.
  rewrite !normLabel_text, toLowerCase_idem. split; [|split; reflexivity].
  unfold removeWhiteSpace.
  rewrite !filterChars_toLowerCase by (intros c; now rewrite lowerChar_whiteSpace).
  now rewrite filterChars_idem.
Qed.

(** ** What the header search looks at *)

Lemma headerLoop_norm (rows : list Row) : forall rows' r,
  map (map normLabel) rows = map (map normLabel) rows' ->
  headerLoop r rows = headerLoop r rows'.
Proof.
  induction rows as [|row rest IH]; intros [|row' rest'] r H;
    try discriminate H; [reflexivity|].
  simpl in H. inversion H as [[H1 H2]]. simpl. rewrite H1.
  destruct (r <? 30); [|reflexivity].
  destruct (negb _ && negb _); [reflexivity|]. now apply IH.
Qed.

Lemma headerLoop_firstn (n : nat) : forall rows r,
  r = 30 - Z.of_nat n ->
  headerLoop r rows = headerLoop r (firstn n rows).
Proof.
  induction n as [|n IH]; intros [|row rest] r Hr; try reflexivity.
  - simpl. replace (r <? 30) with false by (symmetry; apply Z.ltb_ge; lia).
    reflexivity.
  - simpl. destruct (r <? 30); [|reflexivity].
    destruct (negb _ && negb _); [reflexivity|]. apply IH. lia.
Qed.

(** X4. The header search sees a grid only through the normalized labels
    of its first 30 rows: two grids that agree on those get the same
    answer, whatever else differs (letter case, whitespace, kinds of cell,
    everything from row 30 on). *)
Theorem header_search_sees_labels_only (rows rows' : list Row) :
  map (map normLabel) (firstn 30 rows) = map (map normLabel) (firstn 30 rows') ->
  findHeaderIndexes rows = findHeaderIndexes rows'.
Proof.
  intros H. unfold findHeaderIndexes.
  rewrite (headerLoop_firstn 30 rows 0), (headerLoop_firstn 30 rows' 0) by reflexivity.
  now apply headerLoop_norm.
Qed.

Lemma header_search_sees_labels_only_witness :
  map (map normLabel)
      (firstn 30 [[CNum 7]; [CText " MONTH "; CText "A m o u n t"]; [CText "Jan"]])
  = map (map normLabel)
      (firstn 30 [[CText "7"]; [CText "month"; CText "amount"]; [CText "JAN"]]) /\
  findHeaderIndexes [[CNum 7]; [CText " MONTH "; CText "A m o u n t"]; [CText "Jan"]]
  = findHeaderIndexes [[CText "7"]; [CText "month"; CText "amount"]; [CText "JAN"]].
Proof.
  split; [vm_compute; reflexivity|].
  apply header_search_sees_labels_only. vm_compute; reflexivity.
Defined.

(** ** Where records come from *)

Lemma step_length (dateStringMonth : string -> option Z) (h : HeaderInfo) (r : Row) :
  (List.length (normalizeStep dateStringMonth h [] r) <= 1)%nat.
Proof.
  destruct (step_cases dateStringMonth h r) as [U|(mi & amt & R)].
  - rewrite (step_unresolved _ _ r U). simpl; lia.
  - rewrite (step_resolves _ _ r mi amt R). simpl; lia.
Qed.

Lemma normalizeRows_length (dateStringMonth : string -> option Z) (h : HeaderInfo)
      (rows : list Row) :
  (List.length (normalizeRows dateStringMonth h rows) <= List.length rows)%nat.
Proof.
  induction rows as [|r rest IH]; [simpl; lia|].
  rewrite normalizeRows_cons, length_app. simpl.
  pose proof (step_length dateStringMonth h r). lia.
Qed.

Lemma normalizeRows_origin (dateStringMonth : string -> option Z) (h : HeaderInfo)
      (rows : list Row) (rec : NormalizedRecord) :
  In rec (normalizeRows dateStringMonth h rows) ->
  exists r mi amt,
    In r rows /\ Resolves dateStringMonth h r mi amt /\
    rec = mkRecord (mi + 1)%float amt.
Proof.
  rewrite normalizeRows_flat_map. intros H.
  apply in_flat_map in H as (r & Hr & Hin).
  destruct (step_cases dateStringMonth h r) as [U|(mi & amt & R)].
  - rewrite (step_unresolved _ _ r U) in Hin. destruct Hin.
  - rewrite (step_resolves _ _ r mi amt R) in Hin. destruct Hin as [<-|[]].
    now exists r, mi, amt.
Qed.

(** X5. Nothing is made up: when a run succeeds, a header was found,
    there are at most as many records as rows after the header, and every
    record is the month index plus one and the amount of some row after
    the header in which both resolve.  The header row and the rows above
    it never give a record. *)
Theorem records_come_from_rows (dateStringMonth : string -> option Z)
        (rows : list Row) (normalized : list NormalizedRecord) :
  ingest dateStringMonth rows = Success normalized ->
  exists h,
    findHeaderIndexes rows = Some h /\
    (List.length normalized <= List.length (rowsAfter h rows))%nat /\
    forall rec, In rec normalized ->
      exists r mi amt,
        In r (rowsAfter h rows) /\ Resolves dateStringMonth h r mi amt /\
        rec = mkRecord (mi + 1)%float amt.
Proof.
  intros H. destruct (findHeaderIndexes rows) as [h|] eqn:Hh.
  - rewrite (ingest_found _ _ h Hh) in H. exists h. split; [reflexivity|].
    pose proof (normalizeRows_length dateStringMonth h (rowsAfter h rows)) as L.
    pose proof (normalizeRows_origin dateStringMonth h (rowsAfter h rows)) as O.
    destruct (normalizeRows dateStringMonth h (rowsAfter h rows)) as [|x l];
      [discriminate H|].
    inversion H; subst normalized. split; [exact L | exact O].
  - unfold ingest in H. rewrite Hh in H. destruct rows; discriminate H.
Qed.

Lemma records_come_from_rows_witness :
  ingest bareNumberDates
    [[CText "May"; CNum 1]; [CText "Month"; CText "Amount"]; [CText "Feb"; CNum 20]]
  = Success [mkRecord 2 20] /\
  exists h,
    findHeaderIndexes
      [[CText "May"; CNum 1]; [CText "Month"; CText "Amount"]; [CText "Feb"; CNum 20]]
    = Some h /\
    (List.length [mkRecord 2 20]
     <= List.length
          (rowsAfter h [[CText "May"; CNum 1]; [CText "Month"; CText "Amount"];
                        [CText "Feb"; CNum 20]]))%nat /\
    forall rec, In rec [mkRecord 2 20] ->
      exists r mi amt,
        In r (rowsAfter h [[CText "May"; CNum 1]; [CText "Month"; CText "Amount"];
                           [CText "Feb"; CNum 20]]) /\
        Resolves bareNumberDates h r mi amt /\
        rec = mkRecord (mi + 1)%float amt.
Proof.
  assert (E : ingest bareNumberDates
                [[CText "May"; CNum 1]; [CText "Month"; CText "Amount"];
                 [CText "Feb"; CNum 20]]
              = Success [mkRecord 2 20]) by (vm_compute; reflexivity).
  split; [exact E|].
  exact (records_come_from_rows bareNumberDates _ _ E).
Defined.

(** ** Why a run fails *)

Lemma normalizeRows_nil (dateStringMonth : string -> option Z) (h : HeaderInfo)
      (rows : list Row) :
  normalizeRows dateStringMonth h rows = [] ->
  forall r, In r rows -> Unresolved dateStringMonth h r.
Proof.
  intros E r Hr.
  destruct (step_cases dateStringMonth h r) as [U|(mi & amt & R)]; [exact U|].
  pose proof (normalizeRows_In dateStringMonth h rows r mi amt Hr R) as Hin.
  rewrite E in Hin. destruct Hin.
Qed.

(** X6. The three failures of a run are told apart exactly: "Empty
    worksheet" when there is no row at all (and not "header not found");
    header not found when there are rows and the header search fails; "No
    valid rows" when a header is found and no row after it resolves both
    its month and its amount. *)
Theorem failure_reasons (dateStringMonth : string -> option Z) (rows : list Row) :
  (ingest dateStringMonth rows = Failure EmptyWorksheet <-> rows = []) /\
  (ingest dateStringMonth rows = Failure HeaderNotFound <->
   rows <> [] /\ findHeaderIndexes rows = None) /\
  (ingest dateStringMonth rows = Failure NoValidRows <->
   exists h, findHeaderIndexes rows = Some h /\
             forall r, In r (rowsAfter h rows) -> Unresolved dateStringMonth h r).
Proof.
  destruct rows as [|r0 rest].
  - simpl. repeat split; try discriminate; try reflexivity.
    + intros [H _]. now elim H.
    + intros (h & Hh & _). discriminate Hh.
  - destruct (findHeaderIndexes (r0 :: rest)) as [h|] eqn:Hh.
    + rewrite (ingest_found _ _ h Hh).
      pose proof (normalizeRows_nil dateStringMonth h (rowsAfter h (r0 :: rest))) as N.
      pose proof (normalizeRows_all_unresolved dateStringMonth h
                    (rowsAfter h (r0 :: rest))) as A.
      destruct (normalizeRows dateStringMonth h (rowsAfter h (r0 :: rest))) as [|x l].
      * repeat split; try discriminate.
        -- intros [_ H]; discriminate H.
        -- intros _. exists h. split; [reflexivity | now apply N].
      * repeat split; try discriminate.
        -- intros [_ H]; discriminate H.
        -- intros (h' & Hh' & U). inversion Hh'; subst h'.
           specialize (A U). discriminate A.
    + unfold ingest. rewrite Hh. repeat split; try discriminate.
      intros (h & Hh' & _). discriminate Hh'.
Qed.

(** ** Ragged rows *)

Lemma cellAt_beyond (r : Row) (i : Z) :
  Z.of_nat (List.length r) <= i -> cellAt r i = CNull.
Proof.
  intros H. unfold cellAt.
  replace (i <? 0) with false by (symmetry; apply Z.ltb_ge; lia).
  apply nth_overflow. lia.
Qed.

(** X7. A row too short to reach the month column or the amount column
    is passed over like a blank line: reading past the end of a row gives
    an absent cell, and the loop leaves the list as it was. *)
Theorem short_row_is_skipped (dateStringMonth : string -> option Z)
        (h : HeaderInfo) (normalized : list NormalizedRecord) (r : Row) :
  Z.of_nat (List.length r) <= monthIdx h \/ Z.of_nat (List.length r) <= amountIdx h ->
  normalizeStep dateStringMonth h normalized r = normalized.
Proof.
  intros H. rewrite normalizeStep_push, step_unresolved; [apply app_nil_r|].
  destruct H as [H|H]; [left | right]; now rewrite (cellAt_beyond r _ H).
Qed.

Lemma short_row_is_skipped_witness :
  (Z.of_nat (List.length [CText "Jan"]) <= monthIdx (mkHeaderInfo 0 0 1) \/
   Z.of_nat (List.length [CText "Jan"]) <= amountIdx (mkHeaderInfo 0 0 1)) /\
  normalizeStep bareNumberDates (mkHeaderInfo 0 0 1) [mkRecord 3 5] [CText "Jan"]
  = [mkRecord 3 5].
Proof.
  assert (H : Z.of_nat (List.length [CText "Jan"]) <= monthIdx (mkHeaderInfo 0 0 1) \/
              Z.of_nat (List.length [CText "Jan"]) <= amountIdx (mkHeaderInfo 0 0 1))
    by (right; simpl; lia).
  split; [exact H|].
  exact (short_row_is_skipped bareNumberDates (mkHeaderInfo 0 0 1) [mkRecord 3 5]
           [CText "Jan"] H).
Defined.

(** ** Month names, there and back *)

Ltac each_month k :=
  do 12 (destruct k as [|k]; [vm_compute; reflexivity|]); exfalso; lia.

(** X8. The twelve names of [MONTHS] are read back as they were written:
    for a date reader that does not take the name for a date, the name at
    position [k] resolves to month index [k]; [indexToMonthName] turns [k]
    back into that name; and the month number [k + 1] that the upload
    stores is shown by the read-back route under that same name. *)
Theorem month_names_round_trip (dateStringMonth : string -> option Z) (k : nat) :
  (k < 12)%nat ->
  dateStringMonth (toLowerCase (nth k MONTHS "")) = None ->
  monthStringToIndex dateStringMonth (CText (nth k MONTHS ""))
  = Some (ofZ (Z.of_nat k)) /\
  indexToMonthName (ofZ (Z.of_nat k)) = VString (nth k MONTHS "") /\
  recordMonth (Some (ofZ (Z.of_nat k) + 1)%float) = VString (nth k MONTHS "").
Proof.
  intros Hk Hd. split; [|split].
  - rewrite month_of_rejected_text.
    + clear Hd. each_month k.
    + rewrite <- Hd. f_equal. clear Hd. each_month k.
  - clear Hd. each_month k.
  - clear Hd. each_month k.
Qed.

Lemma month_names_round_trip_witness :
  (8 < 12)%nat /\
  bareNumberDates (toLowerCase (nth 8 MONTHS "")) = None /\
  monthStringToIndex bareNumberDates (CText "September") = Some 8%float /\
  indexToMonthName 8 = VString "September" /\
  recordMonth (Some 9%float) = VString "September".
Proof.
  split; [lia|]. split; [reflexivity|].
  apply (month_names_round_trip bareNumberDates 8); [lia | reflexivity].
Defined.

(** X9. The abbreviation table agrees with the full names: for a date
    reader that does not take it for a date, the first three letters of
    the name at position [k] resolve, whatever their case, to the month
    index [k]. *)
Theorem abbreviations_agree_with_names (dateStringMonth : string -> option Z)
        (k : nat) (s : string) :
  (k < 12)%nat ->
  toLowerCase (trim s) = toLowerCase (substring 0 3 (nth k MONTHS "")) ->
  dateStringMonth (toLowerCase (trim s)) = None ->
  monthStringToIndex dateStringMonth (CText s) = Some (ofZ (Z.of_nat k)).
Proof.
  intros Hk Hs Hd. rewrite month_of_rejected_text by exact Hd. rewrite Hs.
  clear Hs Hd. each_month k.
Qed.

Lemma abbreviations_agree_with_names_witness :
  (11 < 12)%nat /\
  toLowerCase (trim " DEC ") = toLowerCase (substring 0 3 (nth 11 MONTHS "")) /\
  bareNumberDates (toLowerCase (trim " DEC ")) = None /\
  monthStringToIndex bareNumberDates (CText " DEC ") = Some 11%float.
Proof.
  split; [lia|]. split; [reflexivity|]. split; [reflexivity|].
  apply (abbreviations_agree_with_names bareNumberDates 11 " DEC ");
    [lia | reflexivity | reflexivity].
Defined.

(** ** Which month indexes can come out *)

Lemma indexOf_range (arr : list string) (x : string) :
  includes arr x = true -> 0 <= indexOf arr x < Z.of_nat (List.length arr).
Proof.
  intros H. unfold includes in H. apply existsb_exists in H as (y & Hy & E).
  unfold indexOf, findIndex.
  assert (N : findIndexFrom (String.eqb x) 0 arr <> -1).
  { intros C. rewrite findIndexFrom_none in C by lia. rewrite (C y Hy) in E.
    discriminate E. }
  destruct (findIndexFrom_found _ arr 0 ltac:(lia) N) as (k & z & Ek & Hn & _).
  rewrite Ek. assert (k < List.length arr)%nat by (apply nth_error_Some; congruence).
  lia.
Qed.

Lemma ownProperty_In (tbl : list (string * Z)) (k : string) (v : Z) :
  ownProperty tbl k = Some v -> exists k', In (k', v) tbl.
Proof.
  induction tbl as [|[k' v'] rest IH]; [discriminate|]. simpl.
  destruct (String.eqb k k').
  - intros H; inversion H; subst. exists k'. now left.
  - intros H. destruct (IH H) as (k'' & Hin). exists k''. now right.
Qed.

Lemma nameRule_range (cleaned : string) (mi : float) :
  nameRule cleaned = Some mi -> exists k, 0 <= k <= 11 /\ mi = ofZ k.
Proof.
  unfold nameRule. destruct (includes full cleaned) eqn:E.
  - intros H; inversion H. exists (indexOf full cleaned). split; [|reflexivity].
    pose proof (indexOf_range full cleaned E) as R.
    change (Z.of_nat (List.length full)) with 12 in R. lia.
  - destruct (ownProperty abbr cleaned) as [v|] eqn:P; [|discriminate].
    intros H; inversion H. exists v. split; [|reflexivity].
    apply ownProperty_In in P as (k' & Hin). simpl in Hin.
    repeat (destruct Hin as [Hin|Hin]; [inversion Hin; lia|]). destruct Hin.
Qed.

Lemma month_number_whole (k : Z) :
  0 <= k <= 11 -> isMonthNumber (ofZ k + 1) = true.
Proof.
  intros H.
  assert (E : k = 0 \/ k = 1 \/ k = 2 \/ k = 3 \/ k = 4 \/ k = 5 \/ k = 6 \/
              k = 7 \/ k = 8 \/ k = 9 \/ k = 10 \/ k = 11) by lia.
  repeat (destruct E as [->|E]; [vm_compute; reflexivity|]).
  subst k. vm_compute; reflexivity.
Qed.

Lemma monthOfText_range (dateStringMonth : string -> option Z) (text : string)
      (mi : float) :
  (forall s m, dateStringMonth s = Some m -> 0 <= m <= 11) ->
  monthOfText dateStringMonth text = Some mi ->
  exists k, 0 <= k <= 11 /\ mi = ofZ k.
Proof.
  intros Hd. unfold monthOfText.
  destruct (dateStringMonth (toLowerCase (trim text))) as [m|] eqn:E; simpl.
  - intros H; inversion H. exists m. split; [now apply (Hd _ m E) | reflexivity].
  - destruct (digitStringRule _) as [r|] eqn:D; simpl.
    + intros H; inversion H; subst r.
      apply digitStringRule_some in D as (_ & R & ->).
      eexists. split; [|reflexivity]. lia.
    + apply nameRule_range.
Qed.

(** X10. A month index that is not a whole number between 0 and 11 can
    only come from a numeric cell that passes the range test, or from a
    date value: for every other cell, and for a date reader that reports
    months 0 to 11, a resolved index is one of 0..11 and the month number
    stored is a whole number among 1..12. *)
Theorem month_index_origin (dateStringMonth : string -> option Z) (val : Cell)
        (mi : float) :
  (forall s m, dateStringMonth s = Some m -> 0 <= m <= 11) ->
  monthStringToIndex dateStringMonth val = Some mi ->
  (exists v, val = CNum v /\ numericRule v = Some mi) \/
  (exists m text, val = CDate (DateAt m text) /\ mi = ofZ m) \/
  (exists k, 0 <= k <= 11 /\ mi = ofZ k /\ isMonthNumber (mi + 1) = true).
Proof.
  intros Hd H.
  assert (T : forall text, monthOfText dateStringMonth text = Some mi ->
                exists k, 0 <= k <= 11 /\ mi = ofZ k /\ isMonthNumber (mi + 1) = true).
  { intros text E. destruct (monthOfText_range _ text mi Hd E) as (k & R & ->).
    exists k. split; [exact R|]. split; [reflexivity | now apply month_number_whole]. }
  destruct val as [|v|[|m text]|s|b]; simpl in H.
  - discriminate H.
  - destruct (numericRule v) as [r|] eqn:E; simpl in H.
    + inversion H; subst r. left. now exists v.
    + right; right. now apply (T (numberToString v)).
  - right; right. now apply (T "Invalid Date"%string).
  - inversion H. right; left. now exists m, text.
  - right; right. now apply (T s).
  - right; right. destruct b; [now apply (T "true"%string) | now apply (T "false"%string)].
Qed.

Lemma bareNumberDates_range (s : string) (m : Z) :
  bareNumberDates s = Some m -> 0 <= m <= 11.
Proof.
  unfold bareNumberDates. destruct (isOneOrTwoDigits s); [|discriminate].
  destruct ((1 <=? digitsValue s) && (digitsValue s <=? 12)) eqn:E.
  - apply andb_true_iff in E as [E1 E2]. apply Z.leb_le in E1, E2.
    intros H; inversion H; lia.
  - destruct ((13 <=? digitsValue s) && (digitsValue s <=? 31)); [discriminate|].
    intros H; inversion H; lia.
Qed.

Lemma month_index_origin_witness :
  (forall s m, bareNumberDates s = Some m -> 0 <= m <= 11) /\
  monthStringToIndex bareNumberDates (CText "45") = Some 0%float /\
  ((exists v, CText "45" = CNum v /\ numericRule v = Some 0%float) \/
   (exists m text, CText "45" = CDate (DateAt m text) /\ 0%float = ofZ m) \/
   (exists k, 0 <= k <= 11 /\ 0%float = ofZ k /\ isMonthNumber (0 + 1) = true)).
Proof.
  split; [exact bareNumberDates_range|]. split; [vm_compute; reflexivity|].
  apply (month_index_origin bareNumberDates (CText "45") 0%float
           bareNumberDates_range).
  vm_compute; reflexivity.
Defined.

(** ** Month labels of the read-back route *)

Lemma arrayGetFrom_In (arr : list string) : forall i key x,
  arrayGetFrom arr i key = Some x -> In x arr.
Proof.
  induction arr as [|y rest IH]; intros i key x; [discriminate|]. simpl.
  destruct (String.eqb key (digitsOf i)).
  - intros H; inversion H. now left.
  - intros H. right. exact (IH _ _ _ H).
Qed.

(** X11. [indexToMonthName] never gives a string that is not one of the
    twelve names; outside the range 0..11, and for [NaN], it gives
    [null]; at the halves 0.5, 1.5, ..., 10.5, which are inside the range,
    it gives [undefined].  In the read-back route a month number that is
    missing, zero or [NaN] is shown as January. *)
Theorem month_label_edges :
  (forall idx name, indexToMonthName idx = VString name -> In name MONTHS) /\
  (forall idx, ((0 <=? idx) && (idx <=? 11))%float = false ->
               indexToMonthName idx = VNull) /\
  indexToMonthName nan = VNull /\
  (forall k, 0 <= k <= 10 -> indexToMonthName (ofZ k + 0.5) = VUndefined) /\
  recordMonth None = VString "January" /\
  (forall v, is_zero v || is_nan v = true -> recordMonth (Some v) = VString "January").
Proof.
  split; [|split; [|split; [|split; [|split]]]].
  - intros idx name. unfold indexToMonthName.
    destruct ((0 <=? idx) && (idx <=? 11))%float; [|discriminate].
    unfold arrayGet. destruct (arrayGetFrom MONTHS 0 _) as [x|] eqn:E; [|discriminate].
    intros H; inversion H; subst x. exact (arrayGetFrom_In _ _ _ _ E).
  - intros idx E. unfold indexToMonthName. now rewrite E.
  - vm_compute; reflexivity.
  - intros k H.
    assert (E : k = 0 \/ k = 1 \/ k = 2 \/ k = 3 \/ k = 4 \/ k = 5 \/ k = 6 \/
                k = 7 \/ k = 8 \/ k = 9 \/ k = 10) by lia.
    repeat (destruct E as [->|E]; [vm_compute; reflexivity|]).
    subst k. vm_compute; reflexivity.
  - vm_compute; reflexivity.
  - intros v E. unfold recordMonth, orOne. rewrite E. vm_compute; reflexivity.
Qed.

(** ** The route parameters *)

Lemma digit_not_whiteSpace (c : ascii) : isDigit c && isWhiteSpace c = false.
Proof. each_char c. Qed.

Lemma trimStart_app_whiteSpace (ws s : string) :
  allChars isWhiteSpace ws = true -> trimStart (ws ++ s) = trimStart s.
Proof.
  induction ws as [|c rest IH]; [reflexivity|]. simpl.
  intros H. apply andb_true_iff in H as [Hc Hrest]. rewrite Hc. now apply IH.
Qed.

Lemma spanDigits_app (ds rest : string) :
  allChars isDigit ds = true -> startsWith isDigit rest = false ->
  spanDigits (ds ++ rest) = (ds, rest).
Proof.
  intros Hd Hr. induction ds as [|c ds' IH]; simpl.
  - destruct rest as [|c r]; [reflexivity|]. simpl in Hr. simpl. now rewrite Hr.
  - simpl in Hd. apply andb_true_iff in Hd as [Hc Hd']. rewrite Hc, (IH Hd').
    reflexivity.
Qed.

(** The sign test of [parseInt] on a string that begins with a digit. *)
Lemma no_sign_on_digit (c : ascii) (r : string) :
  isDigit c = true ->
  match String c r with
  | String "-" r' => (true, r')
  | String "+" r' => (false, r')
  | _ => (false, String c r)
  end = (false, String c r).
Proof.
  destruct c as [[] [] [] [] [] [] [] []]; intros H;
    first [reflexivity | discriminate H].
Qed.

Lemma parseInt10_digits (neg : bool) (ds rest : string) :
  ds <> EmptyString -> allChars isDigit ds = true -> startsWith isDigit rest = false ->
  match fst (spanDigits (ds ++ rest)) with
  | EmptyString => nan
  | ds' => decimalToFloat neg (digitsValue ds') 0
  end = decimalToFloat neg (digitsValue ds) 0.
Proof.
  intros Hne Hd Hr. rewrite (spanDigits_app ds rest Hd Hr). simpl.
  destruct ds; [now elim Hne | reflexivity].
Qed.

(** [parseInt(s, 10)] reads leading whitespace, one optional sign and the
    digits that follow, and ignores whatever comes after them. *)
Lemma parseInt10_prefix (ws sign ds rest : string) :
  allChars isWhiteSpace ws = true ->
  sign = "" \/ sign = "+" \/ sign = "-" ->
  ds <> "" -> allChars isDigit ds = true ->
  startsWith isDigit rest = false ->
  parseInt10 (ws ++ sign ++ ds ++ rest)
  = decimalToFloat (String.eqb sign "-") (digitsValue ds) 0.
Proof.
  intros Hws Hsign Hne Hd Hr. unfold parseInt10.
  rewrite (trimStart_app_whiteSpace ws _ Hws).
  destruct Hsign as [ -> | [ -> | -> ] ].
  - change ("" ++ ds ++ rest)%string with (ds ++ rest)%string.
    destruct ds as [|c ds']; [now elim Hne|].
    assert (Hc : isDigit c = true) by (simpl in Hd; now apply andb_true_iff in Hd).
    assert (W : isWhiteSpace c = false).
    { pose proof (digit_not_whiteSpace c) as N. now rewrite Hc in N. }
    change (String c ds' ++ rest)%string with (String c (ds' ++ rest)%string).
    simpl trimStart. rewrite W, (no_sign_on_digit c _ Hc).
    change (String c (ds' ++ rest)%string) with (String c ds' ++ rest)%string.
    now apply parseInt10_digits.
  - change (trimStart ("+" ++ ds ++ rest)) with (String "+" (ds ++ rest)%string).
    cbv iota beta. now apply parseInt10_digits.
  - change (trimStart ("-" ++ ds ++ rest)) with (String "-" (ds ++ rest)%string).
    cbv iota beta. now apply parseInt10_digits.
Qed.

(** X12. The route reads each parameter with [parseInt(s, 10)]: leading
    whitespace, one optional sign, then digits; whatever follows the
    digits is ignored.  The value is that of the digits, negated under a
    minus sign, and the test on the two parameters gives the same verdict
    as on the bare signed digits: "2023abc" or "12.9" pass as 2023 and
    12. *)
Theorem route_parameter_trailing_text (ws sign ds rest : string) :
  allChars isWhiteSpace ws = true ->
  sign = "" \/ sign = "+" \/ sign = "-" ->
  ds <> "" -> allChars isDigit ds = true ->
  startsWith isDigit rest = false ->
  parseInt10 (ws ++ sign ++ ds ++ rest)
  = decimalToFloat (String.eqb sign "-") (digitsValue ds) 0 /\
  forall other,
    paramsAreIntegers (ws ++ sign ++ ds ++ rest) other
    = paramsAreIntegers (sign ++ ds) other /\
    paramsAreIntegers other (ws ++ sign ++ ds ++ rest)
    = paramsAreIntegers other (sign ++ ds).
Proof.
  intros Hws Hsign Hne Hd Hr.
  pose proof (parseInt10_prefix ws sign ds rest Hws Hsign Hne Hd Hr) as E.
  pose proof (parseInt10_prefix "" sign ds "" eq_refl Hsign Hne Hd eq_refl) as E0.
  assert (N : (ds ++ "")%string = ds).
  { clear. induction ds as [|c r IH]; [reflexivity|]. simpl. now rewrite IH. }
  change ("" ++ sign ++ ds ++ "")%string with (sign ++ ds ++ "")%string in E0.
  rewrite N in E0.
  split; [exact E|]. intros other. unfold paramsAreIntegers. now rewrite E, E0.
Qed.

Lemma route_parameter_trailing_text_witness :
  allChars isWhiteSpace " " = true /\
  allChars isDigit "2023" = true /\
  startsWith isDigit "abc" = false /\
  parseInt10 (" " ++ "-" ++ "2023" ++ "abc") = (-2023)%float /\
  paramsAreIntegers "12.9" " -2023abc" = paramsAreIntegers "12.9" "-2023" /\
  paramsAreIntegers "12.9" "2023abc" = true.
Proof.
  split; [reflexivity|]. split; [reflexivity|]. split; [reflexivity|].
  destruct (route_parameter_trailing_text " " "-" "2023" "abc") as (E & P);
    [reflexivity | right; right; reflexivity | discriminate | reflexivity
    | reflexivity |].
  split; [exact E|]. split; [exact (proj2 (P "12.9"))|].
  vm_compute; reflexivity.
Defined.

Lemma allChars_trimStart (p : ascii -> bool) (s : string) :
  allChars p s = true -> allChars p (trimStart s) = true.
Proof.
  induction s as [|c rest IH]; [reflexivity|]. simpl. intros H.
  destruct (isWhiteSpace c); [|exact H].
  apply andb_true_iff in H as [_ H]. now apply IH.
Qed.

Lemma spanDigits_no_digit (s : string) :
  allChars (fun c => negb (isDigit c)) s = true -> fst (spanDigits s) = EmptyString.
Proof.
  destruct s as [|c rest]; [reflexivity|]. simpl. intros H.
  apply andb_true_iff in H as [H _]. apply negb_true_iff in H. now rewrite H.
Qed.

Lemma parseInt10_no_digit (s : string) :
  allChars (fun c => negb (isDigit c)) s = true -> parseInt10 s = nan.
Proof.
  intros H. apply allChars_trimStart in H. unfold parseInt10.
  destruct (trimStart s) as [|c rest]; [reflexivity|].
  assert (R : allChars (fun c => negb (isDigit c)) rest = true)
    by (simpl in H; now apply andb_true_iff in H).
  pose proof (spanDigits_no_digit _ H) as E0.
  pose proof (spanDigits_no_digit _ R) as E1.
  destruct c as [[] [] [] [] [] [] [] []];
    first [now rewrite E1 | now rewrite E0].
Qed.

(** X13. A route parameter that holds no digit is not an integer for the
    route: [parseInt] gives [NaN] on it, [Number.isInteger] refuses that,
    and the test of line 163 fails whichever of the two parameters it
    is. *)
Theorem parameter_without_digit_is_refused (s other : string) :
  allChars (fun c => negb (isDigit c)) s = true ->
  parseInt10 s = nan /\
  paramsAreIntegers s other = false /\
  paramsAreIntegers other s = false.
Proof.
  intros H. pose proof (parseInt10_no_digit s H) as E.
  split; [exact E|]. unfold paramsAreIntegers. rewrite E.
  change (isInteger nan) with false. split; [reflexivity | apply andb_false_r].
Qed.

Lemma parameter_without_digit_is_refused_witness :
  allChars (fun c => negb (isDigit c)) "-abc" = true /\
  parseInt10 "-abc" = nan /\
  paramsAreIntegers "-abc" "2023" = false /\
  paramsAreIntegers "2023" "-abc" = false.
Proof.
  split; [reflexivity|].
  apply (parameter_without_digit_is_refused "-abc"). reflexivity.
Defined.

(** ** A leading minus sign *)

Lemma SFeqb_opp (p : spec_float) : SFeqb (SFopp p) (SFopp p) = SFeqb p p.
Proof.
  destruct p as [s| s| |s m e]; try reflexivity; try (now destruct s).
  unfold SFeqb, SFopp, SFcompare.
  destruct s; simpl; rewrite Z.compare_refl, Pos.compare_cont_refl; reflexivity.
Qed.

Lemma is_nan_opp (f : float) : is_nan (- f)%float = is_nan f.
Proof.
  unfold is_nan. rewrite !FloatAxioms.eqb_spec, opp_spec. now rewrite SFeqb_opp.
Qed.

Lemma binary_round_aux_opp (m e : Z) (l : location) :
  SF2Prim (binary_round_aux prec emax true m e l)
  = (- SF2Prim (binary_round_aux prec emax false m e l))%float.
Proof.
  unfold binary_round_aux.
  destruct (shr_fexp prec emax m e l) as [mrs' e'].
  destruct (shr_fexp prec emax _ e' loc_Exact) as [mrs'' e''].
  destruct (shr_m mrs'') as [|p|p]; try reflexivity.
  destruct (e'' <=? emax - prec); reflexivity.
Qed.

Lemma decimalToFloat_opp (m e10 : Z) :
  decimalToFloat true m e10 = (- decimalToFloat false m e10)%float.
Proof.
  unfold decimalToFloat, decimalToSpec. destruct m as [|p|p]; try reflexivity.
  destruct (0 <=? e10).
  - unfold binary_round. destruct (shl_align _ _ _) as [mz ez].
    apply binary_round_aux_opp.
  - unfold SFdiv. destruct (SFdiv_core_binary _ _ _ _ _ _) as [[mz ez] lz].
    apply binary_round_aux_opp.
Qed.

Lemma filterChars_all (p q : ascii -> bool) (s : string) :
  (forall c, q c = true -> p c = true) ->
  allChars q s = true -> filterChars p s = s.
Proof.
  intros H. induction s as [|c rest IH]; [reflexivity|]. simpl. intros A.
  apply andb_true_iff in A as [Hc Hrest]. now rewrite (H c Hc), (IH Hrest).
Qed.

Lemma unsignedLiteral_opp (s1 : string) :
  unsignedLiteral true s1 = (- unsignedLiteral false s1)%float.
Proof.
  unfold unsignedLiteral. destruct (spanDigits s1) as [ip s2].
  destruct (match s2 with String "." r => spanDigits r | _ => (EmptyString, s2) end)
    as [fp s3].
  destruct (ip ++ fp)%string; [reflexivity | apply decimalToFloat_opp].
Qed.

Lemma digits_and_points_first (c : ascii) (r : string) :
  isDigit c || Ascii.eqb c "." = true ->
  parseFloat (String c r) = unsignedLiteral false (String c r) /\
  parseFloat (String "-" (String c r)) = unsignedLiteral true (String c r) /\
  String.eqb (String c r) "-" = false /\
  String.eqb (String c r) "-." = false.
Proof.
  destruct c as [[] [] [] [] [] [] [] []]; intros H;
    first [discriminate H | repeat split; reflexivity].
Qed.

(** X14. A minus sign in front of text made of digits and decimal points
    gives the opposite amount: "-12.5" is read as the opposite of "12.5",
    and both are unresolved together. *)
Theorem leading_minus_negates (s : string) :
  allChars (fun c => isDigit c || Ascii.eqb c ".") s = true ->
  parseAmount (CText (String "-" s)) = option_map opp (parseAmount (CText s)).
Proof.
  intros H.
  assert (K : keepAmountChars s = s).
  { apply (filterChars_all _ _ s) with (2 := H). intros c Hc. unfold isAmountChar.
    now rewrite Hc. }
  rewrite (parseAmount_text (String "-" s)), (parseAmount_text s).
  change (keepAmountChars (String "-" s)) with (String "-" (keepAmountChars s)).
  rewrite K. clear K.
  destruct s as [|c r]; [reflexivity|].
  assert (Hc : isDigit c || Ascii.eqb c "." = true)
    by (simpl in H; now apply andb_true_iff in H).
  assert (A : forall t, keepAmountChars (trim (String c r)) = t ->
                        keepAmountChars (trim (String "-" (String c r))) = String "-" t).
  { intros t <-. unfold keepAmountChars.
    rewrite !filterChars_trim by apply whiteSpace_not_amountChar. reflexivity. }
  unfold parseAmount.
  change (jsString (CText (String "-" (String c r)))) with (String "-" (String c r)).
  change (jsString (CText (String c r))) with (String c r).
  rewrite (A _ eq_refl).
  set (k := keepAmountChars (trim (String c r))).
  assert (Ek : k = String c r).
  { unfold k, keepAmountChars.
    rewrite filterChars_trim by apply whiteSpace_not_amountChar.
    apply (filterChars_all _ _ _) with (2 := H). intros x Hx. unfold isAmountChar.
    now rewrite Hx. }
  rewrite Ek.
  destruct (digits_and_points_first c r Hc) as (P & N & E1 & E2).
  rewrite P, N, E1, E2, unsignedLiteral_opp, is_nan_opp.
  change (String.eqb (String "-" (String c r)) "") with false.
  change (String.eqb (String "-" (String c r)) ".") with false.
  change (String.eqb (String c r) "") with false.
  change (String.eqb (String "-" (String c r)) "-") with (String.eqb (String c r) "").
  change (String.eqb (String c r) "") with false.
  change (String.eqb (String "-" (String c r)) "-.") with (String.eqb (String c r) ".").
  simpl orb. rewrite ?orb_false_r.
  destruct (Ascii.eqb c "."); [destruct (String.eqb r "")|]; try reflexivity;
    destruct (is_nan (unsignedLiteral false (String c r))); reflexivity.
Qed.

Lemma leading_minus_negates_witness :
  allChars (fun c => isDigit c || Ascii.eqb c ".") "12.5" = true /\
  parseAmount (CText "-12.5") = option_map opp (parseAmount (CText "12.5")) /\
  parseAmount (CText "-12.5") = Some (-12.5)%float.
Proof.
  split; [reflexivity|]. split.
  - apply (leading_minus_negates "12.5"). reflexivity.
  - vm_compute; reflexivity.
Defined.

(** ** The header search, in the words of the design document *)

Lemma specIsSpace_isWhiteSpace (c : ascii) : specIsSpace c = isWhiteSpace c.
Proof. each_char c. Qed.

Lemma specLowerLetter_lowerChar (c : ascii) : specLowerLetter c = lowerChar c.
Proof. each_char c. Qed.

Lemma mapChars_map (f : ascii -> ascii) (s : string) :
  list_ascii_of_string (mapChars f s) = map f (list_ascii_of_string s).
Proof. induction s as [|c rest IH]; [reflexivity|]. simpl. now rewrite IH. Qed.

Lemma specDropSpaces_unseen (l : list ascii) :
  filter (fun c => negb (specIsSpace c)) (map specLowerLetter (specDropSpaces l))
  = filter (fun c => negb (specIsSpace c)) (map specLowerLetter l).
Proof.
  induction l as [|c rest IH]; [reflexivity|]. simpl.
  destruct (specIsSpace c) eqn:E; [|reflexivity].
  rewrite IH, specLowerLetter_lowerChar, specIsSpace_isWhiteSpace,
    lowerChar_whiteSpace, <- specIsSpace_isWhiteSpace, E.
  reflexivity.
Qed.

(** Trimming first changes nothing once all whitespace is removed. *)
Lemma specTrim_unseen (l : list ascii) :
  filter (fun c => negb (specIsSpace c)) (map specLowerLetter (specTrim l))
  = filter (fun c => negb (specIsSpace c)) (map specLowerLetter l).
Proof.
  unfold specTrim.
  rewrite map_rev, filter_rev, specDropSpaces_unseen, map_rev, filter_rev,
    rev_involutive.
  apply specDropSpaces_unseen.
Qed.

(** What the code computes on a cell is the normalization as worded. *)
Lemma normLabel_specLabel (c : Cell) : normLabel c = specLabel c.
Proof.
  assert (E : forall t, removeWhiteSpace (toLowerCase (trim t)) = specNormalize t).
  { intros t. unfold specNormalize. rewrite specTrim_unseen.
    rewrite <- (string_of_list_ascii_of_string (removeWhiteSpace (toLowerCase (trim t)))).
    f_equal. unfold removeWhiteSpace.
    rewrite <- trim_toLowerCase.
    rewrite filterChars_trim by (intros x; now destruct (isWhiteSpace x)).
    unfold toLowerCase. rewrite filterChars_filter, mapChars_map.
    rewrite (map_ext _ _ specLowerLetter_lowerChar).
    apply filter_ext. intros x. now rewrite specIsSpace_isWhiteSpace. }
  unfold normLabel, specLabel. apply E.
Qed.

Lemma specMonthLabel_iff (c : Cell) : SpecMonthLabel c <-> MonthLabel c.
Proof. unfold SpecMonthLabel, MonthLabel. now rewrite normLabel_specLabel. Qed.

Lemma specAmountLabel_iff (c : Cell) : SpecAmountLabel c <-> AmountLabel c.
Proof. unfold SpecAmountLabel, AmountLabel. now rewrite normLabel_specLabel. Qed.

Lemma specQualifies_iff (row : Row) : SpecQualifies row <-> Qualifies row.
Proof.
  unfold SpecQualifies, Qualifies. split.
  - intros [(c & Hc & Hm) (c' & Hc' & Ha)]. split.
    + exists c. split; [assumption | now apply specMonthLabel_iff].
    + exists c'. split; [assumption | now apply specAmountLabel_iff].
  - intros [(c & Hc & Hm) (c' & Hc' & Ha)]. split.
    + exists c. split; [assumption | now apply specMonthLabel_iff].
    + exists c'. split; [assumption | now apply specAmountLabel_iff].
Qed.

Lemma firstAt_iff (P Q : Cell -> Prop) (row : Row) (i : Z) :
  (forall c, P c <-> Q c) -> FirstAt P row i -> FirstAt Q row i.
Proof.
  intros H (H0 & (c & Hc & Pc) & Hlt). split; [assumption|]. split.
  - exists c. split; [assumption | now apply H].
  - intros j c' Hj Hc' Qc'. apply (Hlt j c' Hj Hc'). now apply H.
Qed.

(** C5. The header search looks at the first 30 rows only.  A cell is a
    month label, or an amount label, when its text, trimmed, lower-cased
    and with the whitespace left inside it removed, is one of the
    synonyms; that is the normalization the code computes.  The search
    fails exactly when none of the first 30 rows holds both a month-label
    cell and an amount-label cell; a qualifying row within the window
    always gives a result; and a result is the lowest qualifying row
    together with the positions of the first month-label cell and of the
    first amount-label cell of that row. *)
Theorem findHeaderIndexes_correct (rows : list Row) :
  (forall c, normLabel c = specLabel c) /\
  (findHeaderIndexes rows = None <->
   forall r row, (r < 30)%nat -> nth_error rows r = Some row -> ~ SpecQualifies row)
  /\
  ((exists r row, (r < 30)%nat /\ nth_error rows r = Some row /\ SpecQualifies row) ->
   exists h, findHeaderIndexes rows = Some h)
  /\
  (forall h, findHeaderIndexes rows = Some h ->
     exists row,
       0 <= headerRow h < 30 /\
       nth_error rows (Z.to_nat (headerRow h)) = Some row /\
       SpecQualifies row /\
       (forall r row', (r < Z.to_nat (headerRow h))%nat ->
                       nth_error rows r = Some row' -> ~ SpecQualifies row') /\
       FirstAt SpecMonthLabel row (monthIdx h) /\
       FirstAt SpecAmountLabel row (amountIdx h)).
Proof.
  destruct (headerSearch_on_normLabel rows) as (Hnone & Hsome & Hres).
  split; [exact normLabel_specLabel|]. split; [|split].
  - rewrite Hnone. split; intros H r row Hr Hn Q; apply (H r row Hr Hn);
      now apply specQualifies_iff.
  - intros (r & row & Hr & Hn & Q). apply Hsome. exists r, row.
    split; [assumption|]. split; [assumption | now apply specQualifies_iff].
  - intros h Hh. destruct (Hres h Hh) as (row & R & Hn & Q & Hlow & Fm & Fa).
    exists row. split; [exact R|]. split; [exact Hn|].
    split; [now apply specQualifies_iff|]. split.
    + intros r row' Hr Hn' Q'. apply (Hlow r row' Hr Hn').
      now apply specQualifies_iff.
    + split.
      * apply (firstAt_iff MonthLabel); [|exact Fm].
        intros c. symmetry. apply specMonthLabel_iff.
      * apply (firstAt_iff AmountLabel); [|exact Fa].
        intros c. symmetry. apply specAmountLabel_iff.
Qed.

Lemma findHeaderIndexes_correct_witness :
  specLabel (CText "  M o n  TH ") = "month" /\
  specLabel (CText "A m t") = "amt" /\
  findHeaderIndexes
    [[CText "Report"]; [CNull; CText "A m t"; CText "  M o n  TH "; CText "Value"]]
  = Some (mkHeaderInfo 1 2 1) /\
  exists row,
    0 <= 1 < 30 /\
    nth_error
      [[CText "Report"]; [CNull; CText "A m t"; CText "  M o n  TH "; CText "Value"]]
      (Z.to_nat 1) = Some row /\
    SpecQualifies row /\
    (forall r row', (r < Z.to_nat 1)%nat ->
        nth_error
          [[CText "Report"]; [CNull; CText "A m t"; CText "  M o n  TH "; CText "Value"]] r
        = Some row' -> ~ SpecQualifies row') /\
    FirstAt SpecMonthLabel row 2 /\
    FirstAt SpecAmountLabel row 1.
Proof.
  split; [vm_compute; reflexivity|]. split; [vm_compute; reflexivity|].
  split; [vm_compute; reflexivity|].
  apply (proj2 (proj2 (proj2
           (findHeaderIndexes_correct
              [[CText "Report"]; [CNull; CText "A m t"; CText "  M o n  TH "; CText "Value"]])))
           (mkHeaderInfo 1 2 1)).
  vm_compute; reflexivity.
Defined.
